(** * NoteRNNLoader: a shallow embedding of
      [magenta/models/rl_tuner/note_rnn_loader.py]

    The class builds the graph of a melody LSTM, restores its weights from a
    checkpoint, primes it with a MIDI melody and predicts next notes.  The
    methods are embedded as functions in a small state/log/exception monad over
    the instance [self]; numpy, TensorFlow and the magenta helpers the class
    calls are modelled by their documented behaviour or taken from a [World]
    record.  Floating point numbers are represented by rationals: the class
    only compares them (arg-max) and writes the constants [0.0] and [1.0]. *)

From Stdlib Require Import String Ascii List ZArith QArith Lia Bool.
From stdpp Require Import base option gmap strings list.

Open Scope string_scope.

(** ** Tensors *)

Abbreviation Tensor1 := (list Q).
Abbreviation Tensor2 := (list (list Q)).
Abbreviation Tensor3 := (list (list (list Q))).

(** A numpy array as the class sees it: [get_note_from_softmax] receives a
    vector from [prime_model] and a one-row matrix from
    [get_next_note_from_note]. *)
Inductive ndarray : Type :=
| Arr1 (a : Tensor1)
| Arr2 (a : Tensor2).

(** ** Python exceptions and the observable trace *)

Inductive Exception : Type :=
| AttributeError (attr : string)
| TypeError (msg : string)
| ValueError (msg : string)
| IndexError (msg : string)
| LibraryError (origin msg : string).

Abbreviation Exc A := (Exception + A)%type.

Definition exc_bind {A B : Type} (m : Exc A) (k : A -> Exc B) : Exc B :=
  match m with
  | inl e => inl e
  | inr a => k a
  end.

(** ** numpy *)

Module np.

(** [np.zeros((rows, cols))] *)
Definition zeros (rows cols : nat) : Tensor2 := replicate rows (replicate cols 0%Q).

(** [np.full(n, v, dtype=int)] *)
Definition full (n v : nat) : list nat := replicate n v.

(** [np.tile([a], (n, 1, 1))]: [n] copies of [a] along a new first axis. *)
Definition tile (a : Tensor2) (n : nat) : Tensor3 := replicate n a.

Definition ravel (a : ndarray) : Tensor1 :=
  match a with
  | Arr1 v => v
  | Arr2 m => concat m
  end.

(** The scan of [np.argmax]: the running best index is replaced only by a
    strictly greater entry, so the first maximum wins. *)
Fixpoint argmax_from (best_i : nat) (best : Q) (i : nat) (l : Tensor1) : nat :=
  match l with
  | [] => best_i
  | x :: l' =>
      if Qle_bool x best
      then argmax_from best_i best (S i) l'
      else argmax_from i x (S i) l'
  end.

(** [np.argmax(a)] on the flattened array; numpy raises [ValueError] on an
    empty one. *)
Definition argmax (a : ndarray) : Exc nat :=
  match ravel a with
  | [] => inl (ValueError "attempt to get argmax of an empty sequence")
  | x :: l => inr (argmax_from 0 x 1 l)
  end.

(** [k] consecutive chunks of [n] entries. *)
Fixpoint chunk {A : Type} (k n : nat) (l : list A) : list (list A) :=
  match k with
  | O => []
  | S k' => firstn n l :: chunk k' n (skipn n l)
  end.

(** [np.reshape(a, (d0, d1, d2))] of a vector; numpy raises [ValueError]
    when the sizes differ. *)
Definition reshape3 (a : Tensor1) (d0 d1 d2 : nat) : Exc Tensor3 :=
  if Nat.eqb (length a) (d0 * d1 * d2)
  then inr (chunk d0 d1 (chunk (d0 * d1) d2 a))
  else inl (ValueError "cannot reshape array").

(** [np.reshape(a, (n))] of a matrix. *)
Definition reshape1 (a : Tensor2) (n : nat) : Exc Tensor1 :=
  if Nat.eqb (length (concat a)) n
  then inr (concat a)
  else inl (ValueError "cannot reshape array").

(** [a[-1, :]]: the last row; [IndexError] when there is none. *)
Definition last_row (a : Tensor2) : Exc Tensor1 :=
  match a with
  | [] => inl (IndexError "index -1 is out of bounds for axis 0 with size 0")
  | r :: a' => inr (List.last a' r)
  end.

End np.

(** ** Strings *)

(** [s.startswith(p)] *)
Definition startswith (s p : string) : bool := String.prefix p s.

(** The part of [s] after the first occurrence of [c], if [c] occurs. *)
Fixpoint after_first (c : ascii) (s : string) : option string :=
  match s with
  | EmptyString => None
  | String d rest => if Ascii.eqb d c then Some rest else after_first c rest
  end.

(** The part of [s] before the first occurrence of [c], if [c] occurs. *)
Fixpoint before_first (c : ascii) (s : string) : option string :=
  match s with
  | EmptyString => None
  | String d rest =>
      if Ascii.eqb d c then Some EmptyString
      else option_map (String d) (before_first c rest)
  end.

(** [c] occurs in [s]. *)
Fixpoint occurs (c : ascii) (s : string) : bool :=
  match s with
  | EmptyString => false
  | String d rest => Ascii.eqb d c || occurs c rest
  end.

(** ** rl_tuner_ops *)

Module rl_tuner_ops.

(** Modelled from the spec: the constant [rl_tuner_ops.NUM_CLASSES] is not
    under src/.  The specification's scenario fixes the note vocabulary to
    38 classes. *)
Definition NUM_CLASSES : nat := 38.

(** Modelled from the spec: the helper [rl_tuner_ops.get_inner_scope] is not
    under src/.  "Strip the outer live scope": the helper receives the
    variable name alone, so the outer scope is the first path segment, up to
    and including the first '/'; a name without '/' has no outer scope. *)
Definition get_inner_scope (scope_str : string) : string :=
  match after_first "/" scope_str with
  | Some inner => inner
  | None => scope_str
  end.

(** Modelled from the spec: the helper [rl_tuner_ops.trim_variable_postfixes]
    is not under src/.  "Strip known version/postfix suffixes": the suffix
    TensorFlow appends to a variable's name is ':' followed by an output
    index; everything from the first ':' on is dropped. *)
Definition trim_variable_postfixes (scope_str : string) : string :=
  match before_first ":" scope_str with
  | Some trimmed => trimmed
  | None => scope_str
  end.

(** Modelled from the spec: the helper [rl_tuner_ops.make_onehot] is not
    under src/.  A one-hot vector has one unit entry and zeros elsewhere; the
    helper makes one vector of [one_hot_length] entries per integer of
    [int_list], with the unit entry at that integer. *)
Definition make_onehot (int_list : list nat) (one_hot_length : nat) : Tensor2 :=
  map (fun i => map (fun j => if Nat.eqb j i then 1%Q else 0%Q) (seq 0 one_hot_length))
      int_list.

End rl_tuner_ops.

(** ** Hyperparameters *)

Module HParams.
Record t : Type := mk {
  batch_size : nat;
  one_hot_length : nat;
  rnn_layer_sizes : list nat
}.
End HParams.

(** ** TensorFlow objects *)

(** A graph is a handle; its variables are read from the world. *)
Definition Graph := nat.

Record TfVar : Type := mkVar {
  name : string;
  shape : list nat
}.

#[global] Instance TfVar_eq_dec : EqDecision TfVar.
Proof. solve_decision. Defined.

(** A session holds the current values of the variables. *)
Record Session : Type := mkSession {
  var_values : gmap string Tensor1
}.

(** The cell [rl_tuner_ops.make_cell] returns: its [state_size] attribute and
    one application of the cell to an input vector and a state row, reading the
    weights from the session. *)
Module Cell.
Record t : Type := mk {
  state_size : nat;
  output_size : nat;
  call : Session -> Tensor1 -> Tensor1 -> Tensor1 * Tensor1
}.
End Cell.

(** [tf.train.Saver(var_list=var_dict)] *)
Record Saver : Type := mkSaver {
  var_list : gmap string TfVar
}.

(** The tensors of the queue-fed input pipeline built by
    [sequence_example_lib.get_padded_batch]. *)
Record TrainTensors : Type := mkTrainTensors {
  train_files : list string;
  train_batch_size : nat;
  train_input_size : nat
}.

(** A melody extracted from the primer: its events and steps per bar. *)
Record Melody : Type := mkMelody {
  events : list Z;
  steps_per_bar_of : nat
}.

Definition NoteSequence := list Z.

Inductive Event : Type :=
| LogInfo (fmt : string) (args : list string)
| LogWarn (fmt : string) (args : list string)
| Print (items : list string)
| SaverRestore (var_dict : gmap string TfVar) (save_path : option string)
| SessionRun (feed_initial_state : Tensor2) (feed_melody_sequence : Tensor3)
             (feed_lengths : list nat)
| SessionRunTrain
| SessionRunInit
| StartQueueRunners
| RequestStop.

(** What Python prints for a value that may be [None]. *)
Definition show (o : option string) : string :=
  match o with
  | Some s => s
  | None => "None"
  end.

(** ** The world outside the class

    The file system, the graph's variables, and the library calls whose
    results the class only passes on. *)
Record World : Type := mkWorld {
  (** [tf.all_variables()] inside [graph.as_default()] *)
  all_variables : Graph -> list TfVar;
  (** [os.path.exists] *)
  path_exists : string -> bool;
  (** [tf.train.latest_checkpoint] *)
  latest_checkpoint : string -> option string;
  (** [tf.train.Saver(var_list=...)]: whether the constructor raises *)
  check_saver : gmap string TfVar -> Exc unit;
  (** [saver.restore(session, save_path)] *)
  saver_restore : Saver -> option Session -> option string -> Exc Session;
  (** [tf.Session(graph=...)] and running [tf.initialize_all_variables()] *)
  new_session : Graph -> Session;
  initialize_all_variables : Session -> Exc Session;
  (** [rl_tuner_ops.default_hparams], [rl_tuner_ops.make_cell] and
      [rl_tuner_ops.get_variable_names] *)
  default_hparams : HParams.t;
  make_cell : HParams.t -> Cell.t;
  get_variable_names : Graph -> string -> list string;
  (** [tf.contrib.layers.legacy_linear(row, n)] and [tf.nn.softmax] on a row *)
  legacy_linear : Session -> Tensor1 -> nat -> Tensor1;
  softmax_fn : Tensor1 -> Tensor1;
  (** [sequence_example_lib.get_padded_batch] and one batch read from it *)
  get_padded_batch : list string -> nat -> nat -> Exc TrainTensors;
  start_queue_runners : option Session -> Exc unit;
  dequeue_batch : TrainTensors -> Exc (Tensor3 * list nat);
  (** [midi_io.midi_file_to_sequence_proto], and quantization followed by
      [melodies_lib.extract_melodies] *)
  midi_file_to_sequence_proto : string -> Exc NoteSequence;
  extract_melodies : NoteSequence -> Exc (list Melody);
  (** [note_rnn_encoder_decoder.MelodyEncoderDecoder().encode]: the inputs
      feature list of the encoded melody *)
  encoder_encode : Melody -> Exc Tensor2
}.

(** ** TensorFlow's recurrent loop *)

Module tf.

(** One batch row of [tf.nn.dynamic_rnn]: the cell is applied to the first
    [len] time steps; later steps emit zeros and keep the state. *)
Fixpoint rnn_loop (cell : Cell.t) (sess : Session) (xs : Tensor2) (len : nat)
         (st : Tensor1) : Tensor2 * Tensor1 :=
  match xs with
  | [] => ([], st)
  | x :: xs' =>
      match len with
      | O => (map (fun _ => replicate (Cell.output_size cell) 0%Q) xs, st)
      | S len' =>
          let '(o, st') := Cell.call cell sess x st in
          let '(os, stf) := rnn_loop cell sess xs' len' st' in
          (o :: os, stf)
      end
  end.

(** The rows of a batch, each with its length and initial state. *)
Fixpoint rnn_batch (cell : Cell.t) (sess : Session) (m_seq : Tensor3)
         (lens : list nat) (init : Tensor2) : Tensor3 * Tensor2 :=
  match m_seq, lens, init with
  | xs :: m_seq', len :: lens', st :: init' =>
      let '(os, stf) := rnn_loop cell sess xs len st in
      let '(outs, sts) := rnn_batch cell sess m_seq' lens' init' in
      (os :: outs, stf :: sts)
  | _, _, _ => ([], [])
  end.

(** [tf.nn.dynamic_rnn(cell, m_seq, sequence_length=lens,
    initial_state=initial_state)]: outputs and final state; the three batch
    dimensions must agree. *)
Definition dynamic_rnn (cell : Cell.t) (sess : Session) (m_seq : Tensor3)
           (lens : list nat) (initial_state : Tensor2) : Exc (Tensor3 * Tensor2) :=
  if Nat.eqb (length m_seq) (length lens) && Nat.eqb (length m_seq) (length initial_state)
  then inr (rnn_batch cell sess m_seq lens initial_state)
  else inl (LibraryError "tensorflow" "incompatible batch sizes").

(** Feeding a placeholder of shape [[None, width]]. *)
Definition feed_rows_ok (width : nat) (m : Tensor2) : bool :=
  forallb (fun row => Nat.eqb (length row) width) m.

(** Feeding a placeholder of shape [[None, None, width]]: a rectangular
    array whose innermost dimension is [width]. *)
Definition feed_seq_ok (width : nat) (a : Tensor3) : bool :=
  forallb (feed_rows_ok width) a
  && match a with
     | [] => true
     | xs :: a' => forallb (fun ys => Nat.eqb (length ys) (length xs)) a'
     end.

End tf.

(** ** The instance

    The attributes of a [NoteRNNLoader] object.  An attribute of option type
    that is [None] where Python has no [None] value for it ([cell], [train],
    [primer_sequence], [primer], [steps_per_bar], [priming_note],
    [checkpoint_dir]) is an attribute that was never assigned: reading it
    raises [AttributeError].  [train] stands for the three attributes
    [train_sequence], [train_labels] and [train_lengths], assigned together. *)
Record NoteRNNLoader : Type := mkLoader {
  graph : Graph;
  session : option Session;
  scope : string;
  batch_size : nat;
  midi_primer : option string;
  softmax_within_graph : bool;
  checkpoint_scope : string;
  training_file_list : option (list string);
  bpm : Q;
  hparams : HParams.t;
  backup_checkpoint_file : option string;
  cell : option Cell.t;
  train : option TrainTensors;
  state_value : Tensor2;
  primer_sequence : option NoteSequence;
  primer : option Melody;
  steps_per_bar : option nat;
  priming_note : option Tensor1;
  variable_names : list string;
  transpose_amount : Z;
  checkpoint_dir : option string
}.

Definition set_session (v : option Session) (s : NoteRNNLoader) : NoteRNNLoader :=
  mkLoader (graph s) v (scope s) (batch_size s) (midi_primer s)
    (softmax_within_graph s) (checkpoint_scope s) (training_file_list s) (bpm s)
    (hparams s) (backup_checkpoint_file s) (cell s) (train s) (state_value s)
    (primer_sequence s) (primer s) (steps_per_bar s) (priming_note s)
    (variable_names s) (transpose_amount s) (checkpoint_dir s).

Definition set_hparams (v : HParams.t) (s : NoteRNNLoader) : NoteRNNLoader :=
  mkLoader (graph s) (session s) (scope s) (batch_size s) (midi_primer s)
    (softmax_within_graph s) (checkpoint_scope s) (training_file_list s) (bpm s)
    v (backup_checkpoint_file s) (cell s) (train s) (state_value s)
    (primer_sequence s) (primer s) (steps_per_bar s) (priming_note s)
    (variable_names s) (transpose_amount s) (checkpoint_dir s).

Definition set_backup_checkpoint_file (v : option string) (s : NoteRNNLoader) : NoteRNNLoader :=
  mkLoader (graph s) (session s) (scope s) (batch_size s) (midi_primer s)
    (softmax_within_graph s) (checkpoint_scope s) (training_file_list s) (bpm s)
    (hparams s) v (cell s) (train s) (state_value s)
    (primer_sequence s) (primer s) (steps_per_bar s) (priming_note s)
    (variable_names s) (transpose_amount s) (checkpoint_dir s).

Definition set_cell (v : option Cell.t) (s : NoteRNNLoader) : NoteRNNLoader :=
  mkLoader (graph s) (session s) (scope s) (batch_size s) (midi_primer s)
    (softmax_within_graph s) (checkpoint_scope s) (training_file_list s) (bpm s)
    (hparams s) (backup_checkpoint_file s) v (train s) (state_value s)
    (primer_sequence s) (primer s) (steps_per_bar s) (priming_note s)
    (variable_names s) (transpose_amount s) (checkpoint_dir s).

Definition set_train (v : option TrainTensors) (s : NoteRNNLoader) : NoteRNNLoader :=
  mkLoader (graph s) (session s) (scope s) (batch_size s) (midi_primer s)
    (softmax_within_graph s) (checkpoint_scope s) (training_file_list s) (bpm s)
    (hparams s) (backup_checkpoint_file s) (cell s) v (state_value s)
    (primer_sequence s) (primer s) (steps_per_bar s) (priming_note s)
    (variable_names s) (transpose_amount s) (checkpoint_dir s).

Definition set_state_value (v : Tensor2) (s : NoteRNNLoader) : NoteRNNLoader :=
  mkLoader (graph s) (session s) (scope s) (batch_size s) (midi_primer s)
    (softmax_within_graph s) (checkpoint_scope s) (training_file_list s) (bpm s)
    (hparams s) (backup_checkpoint_file s) (cell s) (train s) v
    (primer_sequence s) (primer s) (steps_per_bar s) (priming_note s)
    (variable_names s) (transpose_amount s) (checkpoint_dir s).

Definition set_primer_sequence (v : option NoteSequence) (s : NoteRNNLoader) : NoteRNNLoader :=
  mkLoader (graph s) (session s) (scope s) (batch_size s) (midi_primer s)
    (softmax_within_graph s) (checkpoint_scope s) (training_file_list s) (bpm s)
    (hparams s) (backup_checkpoint_file s) (cell s) (train s) (state_value s)
    v (primer s) (steps_per_bar s) (priming_note s)
    (variable_names s) (transpose_amount s) (checkpoint_dir s).

Definition set_primer (v : option Melody) (s : NoteRNNLoader) : NoteRNNLoader :=
  mkLoader (graph s) (session s) (scope s) (batch_size s) (midi_primer s)
    (softmax_within_graph s) (checkpoint_scope s) (training_file_list s) (bpm s)
    (hparams s) (backup_checkpoint_file s) (cell s) (train s) (state_value s)
    (primer_sequence s) v (steps_per_bar s) (priming_note s)
    (variable_names s) (transpose_amount s) (checkpoint_dir s).

Definition set_steps_per_bar (v : option nat) (s : NoteRNNLoader) : NoteRNNLoader :=
  mkLoader (graph s) (session s) (scope s) (batch_size s) (midi_primer s)
    (softmax_within_graph s) (checkpoint_scope s) (training_file_list s) (bpm s)
    (hparams s) (backup_checkpoint_file s) (cell s) (train s) (state_value s)
    (primer_sequence s) (primer s) v (priming_note s)
    (variable_names s) (transpose_amount s) (checkpoint_dir s).

Definition set_priming_note (v : option Tensor1) (s : NoteRNNLoader) : NoteRNNLoader :=
  mkLoader (graph s) (session s) (scope s) (batch_size s) (midi_primer s)
    (softmax_within_graph s) (checkpoint_scope s) (training_file_list s) (bpm s)
    (hparams s) (backup_checkpoint_file s) (cell s) (train s) (state_value s)
    (primer_sequence s) (primer s) (steps_per_bar s) v
    (variable_names s) (transpose_amount s) (checkpoint_dir s).

Definition set_variable_names (v : list string) (s : NoteRNNLoader) : NoteRNNLoader :=
  mkLoader (graph s) (session s) (scope s) (batch_size s) (midi_primer s)
    (softmax_within_graph s) (checkpoint_scope s) (training_file_list s) (bpm s)
    (hparams s) (backup_checkpoint_file s) (cell s) (train s) (state_value s)
    (primer_sequence s) (primer s) (steps_per_bar s) (priming_note s)
    v (transpose_amount s) (checkpoint_dir s).

Definition set_transpose_amount (v : Z) (s : NoteRNNLoader) : NoteRNNLoader :=
  mkLoader (graph s) (session s) (scope s) (batch_size s) (midi_primer s)
    (softmax_within_graph s) (checkpoint_scope s) (training_file_list s) (bpm s)
    (hparams s) (backup_checkpoint_file s) (cell s) (train s) (state_value s)
    (primer_sequence s) (primer s) (steps_per_bar s) (priming_note s)
    (variable_names s) v (checkpoint_dir s).

(** An attribute assigned from outside the class, as Python allows:
    [loader.checkpoint_dir = path].  No method of the class assigns it. *)
Definition set_checkpoint_dir (v : option string) (s : NoteRNNLoader) : NoteRNNLoader :=
  mkLoader (graph s) (session s) (scope s) (batch_size s) (midi_primer s)
    (softmax_within_graph s) (checkpoint_scope s) (training_file_list s) (bpm s)
    (hparams s) (backup_checkpoint_file s) (cell s) (train s) (state_value s)
    (primer_sequence s) (primer s) (steps_per_bar s) (priming_note s)
    (variable_names s) (transpose_amount s) v.

(** ** The monad of the methods: the instance is threaded, log entries and
    library calls are appended to a trace, an exception ends the method and
    keeps the instance as it was when it was raised. *)

Record Res (A : Type) : Type := mkRes {
  res_self : NoteRNNLoader;
  res_log : list Event;
  res_val : Exc A
}.
Arguments mkRes {A} _ _ _.
Arguments res_self {A} _.
Arguments res_log {A} _.
Arguments res_val {A} _.

Definition M (A : Type) : Type := NoteRNNLoader -> Res A.

#[global] Instance M_ret : MRet M := fun A a self => mkRes self [] (inr a).

#[global] Instance M_bind : MBind M := fun A B k m self =>
  match m self with
  | mkRes self1 log1 (inl e) => mkRes self1 log1 (inl e)
  | mkRes self1 log1 (inr a) =>
      match k a self1 with
      | mkRes self2 log2 v => mkRes self2 (log1 ++ log2) v
      end
  end.

Definition raise {A : Type} (e : Exception) : M A := fun self => mkRes self [] (inl e).
Definition emit (ev : Event) : M unit := fun self => mkRes self [ev] (inr tt).
Definition get_self : M NoteRNNLoader := fun self => mkRes self [] (inr self).
Definition modify (f : NoteRNNLoader -> NoteRNNLoader) : M unit :=
  fun self => mkRes (f self) [] (inr tt).
Definition lift {A : Type} (x : Exc A) : M A := fun self => mkRes self [] x.

(** Reading an attribute that may not have been assigned. *)
Definition attr {A : Type} (nm : string) (o : option A) : M A :=
  match o with
  | Some a => mret a
  | None => raise (AttributeError nm)
  end.

(** ** The methods of [NoteRNNLoader] *)

(** [get_zero_state] *)
Definition get_zero_state : M Tensor2 :=
  self ← get_self;
  c ← attr "cell" (cell self);
  mret (np.zeros (batch_size self) (Cell.state_size c)).

(** [variables]: the variables of the graph whose name starts with the scope
    string. *)
Definition variables (w : World) (self : NoteRNNLoader) : list TfVar :=
  List.filter (fun v => startswith (name v) (scope self)) (all_variables w (graph self)).

(** The key under which [get_variable_name_dict] files a variable. *)
Definition checkpoint_name (self : NoteRNNLoader) (var : TfVar) : string :=
  let inner_name := rl_tuner_ops.get_inner_scope (name var) in
  let inner_name := rl_tuner_ops.trim_variable_postfixes inner_name in
  checkpoint_scope self +:+ "/" +:+ inner_name.

(** [get_variable_name_dict]: the loop assigns [var_dict[key] = var] for each
    variable in turn, a later variable replacing an earlier one under the same
    key. *)
Definition get_variable_name_dict (w : World) (self : NoteRNNLoader) : gmap string TfVar :=
  fold_left (fun var_dict var => <[checkpoint_name self var := var]> var_dict)
            (variables w self) ∅.

(** The closure [run_network_on_melody] of [build_graph]. *)
Definition run_network_on_melody (w : World) (self : NoteRNNLoader) (c : Cell.t)
           (sess : Session) (m_seq : Tensor3) (lens : list nat)
           (initial_state : Tensor2) : Exc (Tensor2 * Tensor2) :=
  exc_bind (tf.dynamic_rnn c sess m_seq lens initial_state) (fun '(outputs, final_state) =>
  let outputs_flat := concat outputs in
  let logits_flat :=
    map (fun row => legacy_linear w sess row (HParams.one_hot_length (hparams self)))
        outputs_flat in
  if softmax_within_graph self
  then inr (map (softmax_fn w) logits_flat, final_state)
  else inr (logits_flat, final_state)).

(** The tensors [self.softmax] and [self.state_tensor] that [build_graph]
    defines from the placeholders, evaluated on fed values. *)
Definition softmax_and_state_tensor (w : World) (self : NoteRNNLoader) (c : Cell.t)
           (sess : Session) (m_seq : Tensor3) (lens : list nat)
           (initial_state : Tensor2) : Exc (Tensor2 * Tensor2) :=
  if softmax_within_graph self
  then run_network_on_melody w self c sess m_seq lens initial_state
  else exc_bind (run_network_on_melody w self c sess m_seq lens initial_state)
         (fun '(logits, state_tensor) => inr (map (softmax_fn w) logits, state_tensor)).

(** [self.session.run([self.softmax, self.state_tensor], feed_dict)] with the
    three placeholders fed.  The placeholders have shapes
    [[None, None, one_hot_length]], [[None]] and [[None, cell.state_size]]. *)
Definition session_run (w : World) (initial_state : Tensor2) (melody_sequence : Tensor3)
           (lengths : list nat) : M (Tensor2 * Tensor2) :=
  self ← get_self;
  sess ← attr "run" (session self);
  c ← attr "cell" (cell self);
  emit (SessionRun initial_state melody_sequence lengths);;
  if tf.feed_seq_ok (HParams.one_hot_length (hparams self)) melody_sequence
     && tf.feed_rows_ok (Cell.state_size c) initial_state
  then lift (softmax_and_state_tensor w self c sess melody_sequence lengths initial_state)
  else raise (ValueError "Cannot feed value of this shape").

(** [hparams.rnn_layer_sizes[-1]] *)
Definition rnn_layer_sizes_last (hp : HParams.t) : option nat :=
  List.last (map Some (HParams.rnn_layer_sizes hp)) None.

(** [build_graph].  The tensors it defines ([softmax], [state_tensor],
    [train_softmax], [train_state]) are functions of what is fed or read from
    the queue; they are evaluated by [session_run] and [run_training_batch]. *)
Definition build_graph (w : World) : M unit :=
  self ← get_self;
  emit (LogInfo "Initializing melody RNN graph for scope %s" [scope self]);;
  modify (set_cell (Some (make_cell w (hparams self))));;
  match training_file_list self with
  | Some files =>
      t ← lift (get_padded_batch w files (HParams.batch_size (hparams self))
                                 (HParams.one_hot_length (hparams self)));
      modify (set_train (Some t))
  | None => mret tt
  end;;
  match rnn_layer_sizes_last (hparams self) with
  | Some _ => mret tt
  | None => raise (IndexError "list index out of range")
  end.

(** [get_note_from_softmax] *)
Definition get_note_from_softmax (softmax : ndarray) : M Tensor1 :=
  note_idx ← lift (np.argmax softmax);
  let note_enc := rl_tuner_ops.make_onehot [note_idx] rl_tuner_ops.NUM_CLASSES in
  lift (np.reshape1 note_enc rl_tuner_ops.NUM_CLASSES).

(** [load_primer] *)
Definition load_primer (w : World) : M unit :=
  self ← get_self;
  path ← match midi_primer self with
         | Some p => mret p
         | None => raise (TypeError "coercing to Unicode: need string or buffer, NoneType found")
         end;
  if negb (path_exists w path)
  then emit (LogWarn "ERROR! No such primer file exists! %s" [path])
  else
    ps ← lift (midi_file_to_sequence_proto w path);
    modify (set_primer_sequence (Some ps));;
    extracted_melodies ← lift (extract_melodies w ps);
    match extracted_melodies with
    | [] => raise (IndexError "list index out of range")
    | m :: _ =>
        modify (set_primer (Some m));;
        modify (set_steps_per_bar (Some (steps_per_bar_of m)))
    end.

(** [prime_model] *)
Definition prime_model (w : World) (suppress_output : bool) : M unit :=
  self ← get_self;
  (if suppress_output then mret tt
   else emit (LogInfo "Priming the model with MIDI file %s" [show (midi_primer self)]));;
  p ← attr "primer" (primer self);
  primer_input ← lift (encoder_encode w p);
  let primer_input_batch := np.tile primer_input (batch_size self) in
  '(softmax, st) ← session_run w (state_value self) primer_input_batch
                     (np.full (batch_size self) (length (events p)));
  modify (set_state_value st);;
  priming_output ← lift (np.last_row softmax);
  note ← get_note_from_softmax (Arr1 priming_output);
  modify (set_priming_note (Some note)).

(** [restore_vars_from_checkpoint] *)
Definition restore_vars_from_checkpoint (w : World) (checkpoint_dir : string) : M unit :=
  emit (LogInfo "Restoring variables from checkpoint" []);;
  self ← get_self;
  let var_dict := get_variable_name_dict w self in
  lift (check_saver w var_dict);;
  let saver := mkSaver var_dict in
  emit (LogInfo "Checkpoint dir: %s" [checkpoint_dir]);;
  emit (Print ["Note RNN checkpoint dir"; checkpoint_dir]);;
  checkpoint_file ←
    match latest_checkpoint w checkpoint_dir with
    | None =>
        emit (Print ["can't find checkpoint file, using backup, which is";
                     show (backup_checkpoint_file self)]);;
        mret (backup_checkpoint_file self)
    | Some f => mret (Some f)
    end;
  emit (LogInfo "Checkpoint file: %s" [show checkpoint_file]);;
  emit (Print ["Note RNN checkpoint file"; show checkpoint_file]);;
  emit (SaverRestore var_dict checkpoint_file);;
  sess ← lift (saver_restore w saver (session self) checkpoint_file);
  modify (set_session (Some sess)).

(** [restore_initialize_prime] *)
Definition restore_initialize_prime (w : World) (sess : Session) : M unit :=
  modify (set_session (Some sess));;
  self ← get_self;
  dir ← attr "checkpoint_dir" (checkpoint_dir self);
  restore_vars_from_checkpoint w dir;;
  prime_model w false.

(** [initialize_and_restore] *)
Definition initialize_and_restore (w : World) (sess : Session) : M unit :=
  modify (set_session (Some sess));;
  self ← get_self;
  dir ← attr "checkpoint_dir" (checkpoint_dir self);
  restore_vars_from_checkpoint w dir.

(** [initialize_new] *)
Definition initialize_new (w : World) (sess : option Session) : M unit :=
  self ← get_self;
  let s := match sess with
           | None => new_session w (graph self)
           | Some s => s
           end in
  modify (set_session (Some s));;
  emit SessionRunInit;;
  s' ← lift (initialize_all_variables w s);
  modify (set_session (Some s')).

(** [run_training_batch]: [None] is Python's [None], returned by the bare
    [return]. *)
Definition run_training_batch (w : World) : M (option (Tensor2 * Tensor2 * list nat)) :=
  self ← get_self;
  match training_file_list self with
  | None =>
      emit (LogWarn "No training file path was provided, cannot run trainingbatch" []);;
      mret None
  | Some _ =>
      emit StartQueueRunners;;
      lift (start_queue_runners w (session self));;
      sess ← attr "run" (session self);
      t ← attr "train_softmax" (train self);
      c ← attr "cell" (cell self);
      emit SessionRunTrain;;
      '(train_sequence, train_lengths) ← lift (dequeue_batch w t);
      let zero_state := np.zeros (HParams.batch_size (hparams self)) (Cell.state_size c) in
      '(softmax, state) ← lift (softmax_and_state_tensor w self c sess train_sequence
                                                         train_lengths zero_state);
      emit RequestStop;;
      mret (Some (softmax, state, train_lengths))
  end.

(** [get_next_note_from_note] *)
Definition get_next_note_from_note (w : World) (note : Tensor1) : M Tensor1 :=
  self ← get_self;
  let singleton_lengths := np.full (batch_size self) 1 in
  input_batch ← lift (np.reshape3 note (batch_size self) 1 rl_tuner_ops.NUM_CLASSES);
  '(softmax, st) ← session_run w (state_value self) input_batch singleton_lengths;
  modify (set_state_value st);;
  get_note_from_softmax (Arr2 softmax).

(** The arguments of the constructor; [None] where the caller leaves the
    default. *)
Record InitArgs : Type := mkInitArgs {
  arg_graph : Graph;
  arg_scope : string;
  arg_experiment_dir : string;
  arg_midi_primer : option string;
  arg_training_file_list : option (list string);
  arg_hparams : option HParams.t;
  arg_backup_checkpoint_file : option string;
  arg_softmax_within_graph : bool;
  arg_checkpoint_scope : string;
  arg_bpm : Q
}.

Definition DEFAULT_BPM : Q := 80.

(** The object before [__init__] has assigned anything: the option-typed
    attributes are unassigned; the others are assigned by [__init__] before
    anything reads them. *)
Definition new_object : NoteRNNLoader :=
  mkLoader 0 None "" 0 None true "" None 0 (HParams.mk 0 0 []) None
           None None [] None None None None [] 0%Z None.

(** [__init__].  The argument [experiment_dir] is not stored, and no
    attribute [checkpoint_dir] is assigned. *)
Definition __init__ (w : World) (a : InitArgs) : M unit :=
  modify (fun s =>
    mkLoader (arg_graph a) None (arg_scope a) 1 (arg_midi_primer a)
      (arg_softmax_within_graph a) (arg_checkpoint_scope a) (arg_training_file_list a)
      (arg_bpm a) (hparams s) (backup_checkpoint_file s) (cell s) (train s)
      (state_value s) (primer_sequence s) (primer s) (steps_per_bar s)
      (priming_note s) (variable_names s) (transpose_amount s) (checkpoint_dir s));;
  match arg_hparams a with
  | Some hp =>
      emit (LogInfo "Using custom hparams" []);;
      modify (set_hparams hp)
  | None =>
      emit (LogInfo "Empty hparams string. Using defaults" []);;
      modify (set_hparams (default_hparams w))
  end;;
  modify (set_backup_checkpoint_file (arg_backup_checkpoint_file a));;
  build_graph w;;
  z ← get_zero_state;
  modify (set_state_value z);;
  match arg_midi_primer a with
  | Some _ => load_primer w
  | None => mret tt
  end;;
  self ← get_self;
  modify (set_variable_names (get_variable_names w (graph self) (scope self)));;
  modify (set_transpose_amount 0).

(** [__call__] adds to the graph the same network on the same placeholders
    and assigns [self.state_tensor] the new final-state node, which evaluates
    like the one [build_graph] made; it changes no attribute modelled here and
    is left out. *)

(** [NoteRNNLoader(...)] *)
Definition construct (w : World) (a : InitArgs) : Res unit := __init__ w a new_object.

(** ** A small world to run the methods in

    A cell whose state counts the steps it has made and whose output is its
    input; the linear layer shifts a row one place to the right, so the most
    probable next note is the note after the input note. *)
Module Toy.

Definition cell : Cell.t :=
  Cell.mk 2 rl_tuner_ops.NUM_CLASSES
          (fun _ x st => (x, map (fun q => Qred (q + 1)) st)).

Definition linear (_ : Session) (row : Tensor1) (n : nat) : Tensor1 :=
  firstn n (0%Q :: row ++ replicate n 0%Q).

Definition hp : HParams.t := HParams.mk 2 rl_tuner_ops.NUM_CLASSES [100].

Definition onehot (i : nat) : Tensor1 :=
  concat (rl_tuner_ops.make_onehot [i] rl_tuner_ops.NUM_CLASSES).

Definition graph_variables : list TfVar :=
  [ mkVar "q_network/RNN/BasicLSTMCell/Linear/Matrix:0" [138; 400];
    mkVar "q_network/RNN/BasicLSTMCell/Linear/Bias:0" [400];
    mkVar "q_network/fully_connected/weights:0" [100; 38];
    mkVar "q_network/fully_connected/bias:0" [38] ].

Definition world : World :=
  {| all_variables := fun _ => graph_variables;
     path_exists := fun p => String.eqb p "primer.mid";
     latest_checkpoint := fun dir =>
       if String.eqb dir "experiment/train" then Some "experiment/train/model.ckpt-10"
       else None;
     check_saver := fun _ => inr tt;
     saver_restore := fun _ sess path =>
       match path, sess with
       | None, _ => inl (LibraryError "tensorflow" "restore called with an absent save path")
       | Some _, None => inl (AttributeError "run")
       | Some p, Some s =>
           if String.eqb p "experiment/train/model.ckpt-10" || String.eqb p "backup.ckpt"
           then inr s
           else inl (LibraryError "tensorflow" "no such checkpoint file")
       end;
     new_session := fun _ => mkSession ∅;
     initialize_all_variables := fun s => inr s;
     default_hparams := hp;
     make_cell := fun _ => cell;
     get_variable_names := fun _ sc =>
       map name (List.filter (fun v => startswith (name v) sc) graph_variables);
     legacy_linear := linear;
     softmax_fn := fun row => row;
     get_padded_batch := fun files bs n => inr (mkTrainTensors files bs n);
     start_queue_runners := fun sess =>
       match sess with
       | Some _ => inr tt
       | None => inl (ValueError "Cannot start queue runners: No default session")
       end;
     dequeue_batch := fun t =>
       match train_files t with
       | [] => inl (LibraryError "tensorflow" "OutOfRangeError: queue is closed")
       | _ => inr (replicate (train_batch_size t) [onehot 3; onehot 4],
                   replicate (train_batch_size t) 2%nat)
       end;
     midi_file_to_sequence_proto := fun _ => inr [2; 5; 7; 9]%Z;
     extract_melodies := fun ns => inr [mkMelody ns 16];
     encoder_encode := fun m => inr (map (fun e => onehot (Z.to_nat e)) (removelast (events m))) |}.

(** A graph that also holds the variables of a second model whose scope
    name starts with the scope name of the first. *)
Definition shared_graph_variables : list TfVar :=
  graph_variables ++
  [ mkVar "q_network_target/RNN/BasicLSTMCell/Linear/Matrix:0" [138; 400];
    mkVar "q_network_target/RNN/BasicLSTMCell/Linear/Bias:0" [400];
    mkVar "q_network_target/fully_connected/weights:0" [100; 38];
    mkVar "q_network_target/fully_connected/bias:0" [38] ].

Definition with_variables (vs : list TfVar) (w : World) : World :=
  {| all_variables := fun _ => vs;
     path_exists := path_exists w;
     latest_checkpoint := latest_checkpoint w;
     check_saver := check_saver w;
     saver_restore := saver_restore w;
     new_session := new_session w;
     initialize_all_variables := initialize_all_variables w;
     default_hparams := default_hparams w;
     make_cell := make_cell w;
     get_variable_names := fun _ sc =>
       map name (List.filter (fun v => startswith (name v) sc) vs);
     legacy_linear := legacy_linear w;
     softmax_fn := softmax_fn w;
     get_padded_batch := get_padded_batch w;
     start_queue_runners := start_queue_runners w;
     dequeue_batch := dequeue_batch w;
     midi_file_to_sequence_proto := midi_file_to_sequence_proto w;
     extract_melodies := extract_melodies w;
     encoder_encode := encoder_encode w |}.

Definition shared_world : World := with_variables shared_graph_variables world.

Definition args : InitArgs :=
  mkInitArgs 0 "q_network" "experiment" None None None None true "rnn_model" DEFAULT_BPM.

(** The arguments of a second model, scoped "q_network_target". *)
Definition target_args : InitArgs :=
  mkInitArgs 0 "q_network_target" "experiment" None None None None true "rnn_model"
             DEFAULT_BPM.

Definition with_primer (path : string) (a : InitArgs) : InitArgs :=
  mkInitArgs (arg_graph a) (arg_scope a) (arg_experiment_dir a) (Some path)
    (arg_training_file_list a) (arg_hparams a) (arg_backup_checkpoint_file a)
    (arg_softmax_within_graph a) (arg_checkpoint_scope a) (arg_bpm a).

Definition with_training_file_list (l : option (list string)) (a : InitArgs) : InitArgs :=
  mkInitArgs (arg_graph a) (arg_scope a) (arg_experiment_dir a) (arg_midi_primer a)
    l (arg_hparams a) (arg_backup_checkpoint_file a)
    (arg_softmax_within_graph a) (arg_checkpoint_scope a) (arg_bpm a).

Definition with_hparams (h : option HParams.t) (a : InitArgs) : InitArgs :=
  mkInitArgs (arg_graph a) (arg_scope a) (arg_experiment_dir a) (arg_midi_primer a)
    (arg_training_file_list a) h (arg_backup_checkpoint_file a)
    (arg_softmax_within_graph a) (arg_checkpoint_scope a) (arg_bpm a).

Definition with_backup (b : option string) (a : InitArgs) : InitArgs :=
  mkInitArgs (arg_graph a) (arg_scope a) (arg_experiment_dir a) (arg_midi_primer a)
    (arg_training_file_list a) (arg_hparams a) b
    (arg_softmax_within_graph a) (arg_checkpoint_scope a) (arg_bpm a).

(** The instance after the constructor and [initialize_new()]. *)
Definition fresh (a : InitArgs) : NoteRNNLoader :=
  res_self (initialize_new world None (res_self (construct world a))).

End Toy.

(** ** Specification vocabulary *)

(** [i] is the index [np.argmax] documents: a maximum of [l], and the first
    one. *)
Definition first_argmax (l : Tensor1) (i : nat) : Prop :=
  i < length l
  /\ (forall j, j < length l -> (nth j l 0 <= nth i l 0)%Q)
  /\ (forall j, j < i -> (nth j l 0 < nth i l 0)%Q).

(** [v] has [n] entries, the one at [i] is [1.0] and all others are [0.0]. *)
Definition one_hot (v : Tensor1) (n i : nat) : Prop :=
  length v = n /\ i < n
  /\ forall j, j < n -> nth j v 0%Q = (if Nat.eqb j i then 1%Q else 0%Q).

(** The vector with [n] entries and a unit entry at [i] (none if [n <= i]). *)
Definition unit_vector (n i : nat) : Tensor1 :=
  map (fun j => if Nat.eqb j i then 1%Q else 0%Q) (seq 0 n).

(** The initial states fed to the forward passes recorded in a trace. *)
Fixpoint fed_initial_states (log : list Event) : list Tensor2 :=
  match log with
  | [] => []
  | SessionRun st _ _ :: log' => st :: fed_initial_states log'
  | _ :: log' => fed_initial_states log'
  end.


(** The save paths handed to [saver.restore] in a trace. *)
Fixpoint restored_paths (log : list Event) : list (option string) :=
  match log with
  | [] => []
  | SaverRestore _ p :: log' => p :: restored_paths log'
  | _ :: log' => restored_paths log'
  end.

(** The name TensorFlow gives a variable created as [inner] under the
    variable scope [sc]. *)
Definition scoped_name (sc inner : string) : string := sc +:+ "/" +:+ inner +:+ ":0".

(** The last element of [l] that satisfies [p], or [acc]. *)
Fixpoint last_with (p : TfVar -> bool) (l : list TfVar) (acc : option TfVar) : option TfVar :=
  match l with
  | [] => acc
  | v :: l' => last_with p l' (if p v then Some v else acc)
  end.

(** The cell keeps the width of its state. *)
Definition cell_ok (c : Cell.t) : Prop :=
  forall sess x st,
    length st = Cell.state_size c ->
    length (snd (Cell.call c sess x st)) = Cell.state_size c.

(** The linear layer emits as many entries as asked and the softmax keeps
    the length of its row. *)
Definition layers_ok (w : World) : Prop :=
  (forall sess row n, length (legacy_linear w sess row n) = n)
  /\ (forall row, length (softmax_fn w row) = length row).

(** The instance can run a forward pass on one state row [st]: it has a
    session and a cell, and its state is the single row [st] of the cell's
    state width. *)
Definition ready (self : NoteRNNLoader) (sess : Session) (c : Cell.t) (st : Tensor1) : Prop :=
  session self = Some sess /\ cell self = Some c /\ batch_size self = 1
  /\ state_value self = [st] /\ length st = Cell.state_size c.

(** The Recurrent State Vector has shape (1 x state width of the cell). *)
Definition has_state_shape (w : World) (self : NoteRNNLoader) : Prop :=
  batch_size self = 1
  /\ exists hp, cell self = Some (make_cell w hp)
       /\ length (state_value self) = 1
       /\ Forall (fun row => length row = Cell.state_size (make_cell w hp)) (state_value self).

(** The instance has what [prime_model] reads: a session, a cell and a
    primer melody that the encoder accepts. *)
Definition can_prime (w : World) (self : NoteRNNLoader) : Prop :=
  (exists sess, session self = Some sess)
  /\ (exists c, cell self = Some c)
  /\ exists p inputs, primer self = Some p /\ encoder_encode w p = inr inputs.

(** The instances a caller can get: a constructed one, and the instance any
    method call leaves behind, whether it returned or raised.  The caller may
    also assign the attribute [checkpoint_dir], which the class reads and never
    assigns. *)
Inductive reachable (w : World) : NoteRNNLoader -> Prop :=
| reach_construct a self log :
    construct w a = mkRes self log (inr tt) -> reachable w self
| reach_assign_checkpoint_dir self dir :
    reachable w self -> reachable w (set_checkpoint_dir dir self)
| reach_initialize_new self sess :
    reachable w self -> reachable w (res_self (initialize_new w sess self))
| reach_initialize_and_restore self sess :
    reachable w self -> reachable w (res_self (initialize_and_restore w sess self))
| reach_restore_initialize_prime self sess :
    reachable w self -> reachable w (res_self (restore_initialize_prime w sess self))
| reach_restore_vars_from_checkpoint self dir :
    reachable w self -> reachable w (res_self (restore_vars_from_checkpoint w dir self))
| reach_load_primer self :
    reachable w self -> reachable w (res_self (load_primer w self))
| reach_prime_model self b :
    reachable w self -> reachable w (res_self (prime_model w b self))
| reach_get_note_from_softmax self a :
    reachable w self -> reachable w (res_self (get_note_from_softmax a self))
| reach_run_training_batch self :
    reachable w self -> reachable w (res_self (run_training_batch w self))
| reach_get_next_note_from_note self note :
    reachable w self -> reachable w (res_self (get_next_note_from_note w note self)).

Ltac monad_unfold :=
  unfold mbind, M_bind, mret, M_ret, raise, emit, get_self, modify, lift, attr in *;
  cbn in *.

(** What a method call may change without touching the attributes the
    forward passes read. *)
Definition frame (self self' : NoteRNNLoader) : Prop :=
  batch_size self' = batch_size self /\ cell self' = cell self
  /\ hparams self' = hparams self /\ state_value self' = state_value self.

(** A forward pass either leaves the state value alone or replaces it by the
    final state of a session run that was fed the state value. *)
Definition stepped (w : World) (self self' : NoteRNNLoader) : Prop :=
  batch_size self' = batch_size self /\ cell self' = cell self
  /\ hparams self' = hparams self
  /\ session self' = session self /\ primer self' = primer self
  /\ (state_value self' = state_value self
      \/ exists m lens sm,
           res_val (session_run w (state_value self) m lens self)
           = inr (sm, state_value self')).


Ltac step_match :=
  match goal with
  | |- context [match ?x with _ => _ end] =>
      lazymatch x with
      | context [match _ with _ => _ end] => fail
      | _ => destruct x eqn:?; monad_unfold
      end
  end.

Arguments session_run : simpl never.
Arguments get_note_from_softmax : simpl never.
Arguments rl_tuner_ops.NUM_CLASSES : simpl never.
Arguments restore_vars_from_checkpoint : simpl never.
Arguments prime_model : simpl never.
Arguments load_primer : simpl never.

(** ** Vocabulary of the further properties *)

(** The instances reached through the class alone: the constructor and the
    methods, with no attribute assigned from outside. *)
Inductive reachable_by_methods (w : World) : NoteRNNLoader -> Prop :=
| by_construct a self log :
    construct w a = mkRes self log (inr tt) -> reachable_by_methods w self
| by_initialize_new self sess :
    reachable_by_methods w self ->
    reachable_by_methods w (res_self (initialize_new w sess self))
| by_initialize_and_restore self sess :
    reachable_by_methods w self ->
    reachable_by_methods w (res_self (initialize_and_restore w sess self))
| by_restore_initialize_prime self sess :
    reachable_by_methods w self ->
    reachable_by_methods w (res_self (restore_initialize_prime w sess self))
| by_restore_vars_from_checkpoint self dir :
    reachable_by_methods w self ->
    reachable_by_methods w (res_self (restore_vars_from_checkpoint w dir self))
| by_load_primer self :
    reachable_by_methods w self -> reachable_by_methods w (res_self (load_primer w self))
| by_prime_model self b :
    reachable_by_methods w self -> reachable_by_methods w (res_self (prime_model w b self))
| by_get_note_from_softmax self a :
    reachable_by_methods w self ->
    reachable_by_methods w (res_self (get_note_from_softmax a self))
| by_run_training_batch self :
    reachable_by_methods w self ->
    reachable_by_methods w (res_self (run_training_batch w self))
| by_get_next_note_from_note self note :
    reachable_by_methods w self ->
    reachable_by_methods w (res_self (get_next_note_from_note w note self)).







(** ** numpy and rl_tuner_ops lemmas *)

Lemma first_argmax_unique (l : Tensor1) (i j : nat) :
  first_argmax l i -> first_argmax l j -> i = j.
Proof.
  intros (Hi & Himax & Hifirst) (Hj & Hjmax & Hjfirst).
  destruct (Nat.lt_trichotomy i j) as [Hlt | [Heq | Hgt]]; [ | assumption | ].
  - exfalso. specialize (Hjfirst i Hlt). specialize (Himax j Hj).
    apply (Qlt_not_le _ _ Hjfirst). exact Himax.
  - exfalso. specialize (Hifirst j Hgt). specialize (Hjmax i Hi).
    apply (Qlt_not_le _ _ Hifirst). exact Hjmax.
Qed.

Lemma nth_snoc_last (pre : Tensor1) (x : Q) : nth (length pre) (pre ++ [x]) 0%Q = x.
Proof. rewrite app_nth2 by lia. rewrite Nat.sub_diag. reflexivity. Qed.

Lemma first_argmax_snoc_keep (pre : Tensor1) (x : Q) (bi : nat) :
  first_argmax pre bi -> (x <= nth bi pre 0)%Q -> first_argmax (pre ++ [x]) bi.
Proof.
  intros (Hb & Hmax & Hfirst) Hx.
  unfold first_argmax. rewrite length_app. simpl.
  split; [lia|]. split.
  - intros j Hj. rewrite (app_nth1 pre [x] 0%Q Hb).
    destruct (Nat.eq_dec j (length pre)) as [-> | Hne].
    + rewrite nth_snoc_last. exact Hx.
    + rewrite app_nth1 by lia. apply Hmax. lia.
  - intros j Hj. rewrite (app_nth1 pre [x] 0%Q Hb).
    rewrite app_nth1 by lia. apply Hfirst. exact Hj.
Qed.

Lemma first_argmax_snoc_new (pre : Tensor1) (x : Q) (bi : nat) :
  first_argmax pre bi -> (nth bi pre 0 < x)%Q -> first_argmax (pre ++ [x]) (length pre).
Proof.
  intros (Hb & Hmax & Hfirst) Hx.
  unfold first_argmax. rewrite length_app. simpl.
  split; [lia|]. rewrite nth_snoc_last. split.
  - intros j Hj. destruct (Nat.eq_dec j (length pre)) as [-> | Hne].
    + rewrite nth_snoc_last. apply Qle_refl.
    + rewrite app_nth1 by lia. apply Qlt_le_weak.
      apply Qle_lt_trans with (nth bi pre 0%Q); [apply Hmax; lia | exact Hx].
  - intros j Hj. rewrite app_nth1 by lia.
    apply Qle_lt_trans with (nth bi pre 0%Q); [apply Hmax; lia | exact Hx].
Qed.

(** The scan keeps the first maximum of what it has seen. *)
Lemma argmax_from_first (l pre : Tensor1) (bi : nat) :
  first_argmax pre bi ->
  first_argmax (pre ++ l) (np.argmax_from bi (nth bi pre 0%Q) (length pre) l).
Proof.
  revert pre bi. induction l as [| x l IH]; intros pre bi Hpre.
  - rewrite app_nil_r. exact Hpre.
  - simpl. destruct (Qle_bool x (nth bi pre 0%Q)) eqn:Hle.
    + apply Qle_bool_iff in Hle.
      pose proof (first_argmax_snoc_keep pre x bi Hpre Hle) as Hkeep.
      specialize (IH (pre ++ [x])%list bi Hkeep).
      rewrite <- app_assoc in IH. simpl in IH.
      rewrite length_app in IH. simpl in IH. rewrite Nat.add_1_r in IH.
      destruct Hpre as (Hb & _). rewrite app_nth1 in IH by exact Hb. exact IH.
    + assert (Hlt : (nth bi pre 0 < x)%Q).
      { apply Qnot_le_lt. intros Hc. apply Qle_bool_iff in Hc. congruence. }
      pose proof (first_argmax_snoc_new pre x bi Hpre Hlt) as Hnew.
      specialize (IH (pre ++ [x])%list (length pre) Hnew).
      rewrite <- app_assoc in IH. simpl in IH.
      rewrite length_app in IH. simpl in IH. rewrite Nat.add_1_r in IH.
      rewrite nth_snoc_last in IH. exact IH.
Qed.

(** [np.argmax] returns the first maximum of a non-empty flattened array and
    raises on an empty one. *)
Lemma argmax_first (a : ndarray) :
  np.ravel a <> [] ->
  exists i, np.argmax a = inr i /\ first_argmax (np.ravel a) i.
Proof.
  intros Hne. unfold np.argmax. destruct (np.ravel a) as [| x l]; [congruence|].
  exists (np.argmax_from 0 x 1 l). split; [reflexivity|].
  apply (argmax_from_first l [x] 0).
  unfold first_argmax. simpl. split; [lia|]. split.
  - intros j Hj. assert (j = 0) as -> by lia. apply Qle_refl.
  - intros j Hj. lia.
Qed.

Lemma argmax_empty (a : ndarray) :
  np.ravel a = [] -> exists msg, np.argmax a = inl (ValueError msg).
Proof. intros H. unfold np.argmax. rewrite H. eexists. reflexivity. Qed.

Lemma unit_vector_length (n i : nat) : length (unit_vector n i) = n.
Proof. unfold unit_vector. rewrite length_map, length_seq. reflexivity. Qed.

Lemma unit_vector_nth (n i j : nat) :
  j < n -> nth j (unit_vector n i) 0%Q = (if Nat.eqb j i then 1%Q else 0%Q).
Proof.
  intros Hj. unfold unit_vector.
  set (f := fun j => if Nat.eqb j i then 1%Q else 0%Q).
  rewrite (nth_indep _ 0%Q (f 0)).
  - rewrite map_nth. rewrite seq_nth by exact Hj. reflexivity.
  - rewrite length_map, length_seq. exact Hj.
Qed.

Lemma unit_vector_one_hot (n i : nat) : i < n -> one_hot (unit_vector n i) n i.
Proof.
  intros Hi. split; [apply unit_vector_length|]. split; [exact Hi|].
  intros j Hj. apply unit_vector_nth. exact Hj.
Qed.

(** Past the end there is no unit entry. *)
Lemma unit_vector_out_of_range (n i : nat) :
  n <= i -> unit_vector n i = replicate n 0%Q.
Proof.
  intros Hi. unfold unit_vector.
  assert (H : forall k s, s + k <= i ->
            map (fun j => if Nat.eqb j i then 1%Q else 0%Q) (seq s k) = replicate k 0%Q).
  { induction k as [| k IH]; intros s Hs; [reflexivity|].
    simpl. destruct (Nat.eqb_spec s i) as [-> | _]; [lia|].
    f_equal. apply IH. lia. }
  apply H. lia.
Qed.

Lemma make_onehot_single (i n : nat) :
  rl_tuner_ops.make_onehot [i] n = [unit_vector n i].
Proof. reflexivity. Qed.

(** [get_note_from_softmax] touches neither the instance nor the trace; its
    reshape never fails. *)
Lemma get_note_from_softmax_eq (a : ndarray) (self : NoteRNNLoader) :
  get_note_from_softmax a self =
  mkRes self []
    (match np.argmax a with
     | inl e => inl e
     | inr i => inr (unit_vector rl_tuner_ops.NUM_CLASSES i)
     end).
Proof.
  unfold get_note_from_softmax, mbind, M_bind, lift. cbn [res_val res_self res_log].
  destruct (np.argmax a) as [e | i]; [reflexivity|].
  rewrite make_onehot_single. unfold np.reshape1. cbn [concat].
  rewrite !app_nil_r, unit_vector_length, Nat.eqb_refl. reflexivity.
Qed.

(** ** Strings and the checkpoint name *)

Lemma after_first_append (c : ascii) (s rest : string) :
  occurs c s = false -> after_first c (s +:+ String c rest) = Some rest.
Proof.
  induction s as [| d s IH]; simpl; intros H.
  - rewrite Ascii.eqb_refl. reflexivity.
  - apply orb_false_iff in H as [Hd Hs]. rewrite Hd. apply IH. exact Hs.
Qed.

Lemma before_first_append (c : ascii) (s rest : string) :
  occurs c s = false -> before_first c (s +:+ String c rest) = Some s.
Proof.
  induction s as [| d s IH]; simpl; intros H.
  - rewrite Ascii.eqb_refl. reflexivity.
  - apply orb_false_iff in H as [Hd Hs]. rewrite Hd, (IH Hs). reflexivity.
Qed.

Lemma append_inj_r (a b c : string) : a +:+ b = a +:+ c -> b = c.
Proof.
  induction a as [| d a IH]; simpl; intros H; [exact H|].
  injection H as H. apply IH. exact H.
Qed.

Lemma checkpoint_name_scoped (self : NoteRNNLoader) (v : TfVar) (sc inner : string) :
  occurs "/" sc = false -> occurs ":" inner = false ->
  name v = scoped_name sc inner ->
  checkpoint_name self v = checkpoint_scope self +:+ "/" +:+ inner.
Proof.
  intros Hsc Hin Hname. unfold checkpoint_name. rewrite Hname. unfold scoped_name.
  unfold rl_tuner_ops.get_inner_scope.
  change (sc +:+ "/" +:+ inner +:+ ":0") with (sc +:+ String "/" (inner +:+ ":0")).
  rewrite (after_first_append "/" sc _ Hsc).
  unfold rl_tuner_ops.trim_variable_postfixes.
  change (inner +:+ ":0") with (inner +:+ String ":" "0").
  rewrite (before_first_append ":" inner _ Hin). reflexivity.
Qed.

(** ** The dictionary built by [get_variable_name_dict] *)

Lemma fold_insert_lookup (key : TfVar -> string) (vars : list TfVar)
      (d0 : gmap string TfVar) (k : string) :
  fold_left (fun d v => <[key v := v]> d) vars d0 !! k =
  last_with (fun v => String.eqb (key v) k) vars (d0 !! k).
Proof.
  revert d0. induction vars as [| v vars IH]; intros d0; [reflexivity|].
  simpl. rewrite IH. f_equal.
  destruct (String.eqb_spec (key v) k) as [Heq | Hne].
  - subst k. apply lookup_insert_eq.
  - apply lookup_insert_ne. exact Hne.
Qed.

Lemma last_with_acc_or_in (p : TfVar -> bool) (l : list TfVar) (acc : option TfVar) :
  last_with p l acc = acc \/
  exists v, last_with p l acc = Some v /\ In v l /\ p v = true.
Proof.
  revert acc. induction l as [| x l IH]; intros acc; [left; reflexivity|].
  simpl. destruct (IH (if p x then Some x else acc)) as [H | (v & Hv & Hin & Hp)].
  - destruct (p x) eqn:Hpx.
    + right. exists x. rewrite H. auto.
    + left. exact H.
  - right. exists v. auto.
Qed.

Lemma last_with_in (p : TfVar -> bool) (l : list TfVar) (acc : option TfVar) (x : TfVar) :
  In x l -> p x = true ->
  exists v, last_with p l acc = Some v /\ In v l /\ p v = true.
Proof.
  revert acc. induction l as [| y l IH]; intros acc Hin Hp; [destruct Hin|].
  simpl. destruct Hin as [-> | Hin].
  - rewrite Hp. destruct (last_with_acc_or_in p l (Some x)) as [H | (v & Hv & Hvin & Hpv)].
    + exists x. rewrite H. auto.
    + exists v. auto.
  - destruct (IH (if p y then Some y else acc) Hin Hp) as (v & Hv & Hvin & Hpv).
    exists v. auto.
Qed.

(** Every selected variable's checkpoint name is a key of the dictionary, and
    the entry under it is a selected variable with that checkpoint name: the
    last one in the graph's order. *)
Lemma get_variable_name_dict_lookup (w : World) (self : NoteRNNLoader) (v : TfVar) :
  In v (variables w self) ->
  exists v', get_variable_name_dict w self !! checkpoint_name self v = Some v'
             /\ In v' (variables w self)
             /\ checkpoint_name self v' = checkpoint_name self v.
Proof.
  intros Hin. unfold get_variable_name_dict. rewrite fold_insert_lookup.
  destruct (last_with_in (fun x => String.eqb (checkpoint_name self x) (checkpoint_name self v))
              (variables w self) ((∅ : gmap string TfVar) !! checkpoint_name self v) v Hin
              (String.eqb_refl _))
    as (v' & Hv' & Hin' & Hp).
  exists v'. split; [exact Hv'|]. split; [exact Hin'|].
  apply String.eqb_eq. exact Hp.
Qed.

(** Every entry of the dictionary is a selected variable under its own
    checkpoint name. *)
Lemma get_variable_name_dict_entries (w : World) (self : NoteRNNLoader) (k : string) (v : TfVar) :
  get_variable_name_dict w self !! k = Some v ->
  In v (variables w self) /\ checkpoint_name self v = k.
Proof.
  unfold get_variable_name_dict. rewrite fold_insert_lookup.
  destruct (last_with_acc_or_in (fun x => String.eqb (checkpoint_name self x) k)
              (variables w self) ((∅ : gmap string TfVar) !! k)) as [H | (v' & Hv' & Hin & Hp)].
  - rewrite H, lookup_empty. discriminate.
  - rewrite Hv'. intros [= <-]. split; [exact Hin|]. apply String.eqb_eq. exact Hp.
Qed.

(** When no two selected variables share a checkpoint name, each is filed
    under its own. *)
Lemma get_variable_name_dict_injective (w : World) (self : NoteRNNLoader) :
  (forall v1 v2, In v1 (variables w self) -> In v2 (variables w self) ->
                 checkpoint_name self v1 = checkpoint_name self v2 -> v1 = v2) ->
  forall v, In v (variables w self) ->
            get_variable_name_dict w self !! checkpoint_name self v = Some v.
Proof.
  intros Hinj v Hin.
  destruct (get_variable_name_dict_lookup w self v Hin) as (v' & Hv' & Hin' & Hk).
  rewrite Hv'. f_equal. apply Hinj; assumption.
Qed.

(** Variables created under the instance's own scope get distinct checkpoint
    names: with the scope a single path segment and the names distinct, the
    dictionary is one-to-one on them. *)
Lemma checkpoint_name_injective_scoped (self : NoteRNNLoader) (vs : list TfVar) :
  occurs "/" (scope self) = false ->
  (forall v, In v vs -> exists inner, occurs ":" inner = false
                                     /\ name v = scoped_name (scope self) inner) ->
  forall v1 v2, In v1 vs -> In v2 vs ->
                checkpoint_name self v1 = checkpoint_name self v2 -> name v1 = name v2.
Proof.
  intros Hsc Hform v1 v2 H1 H2 Heq.
  destruct (Hform v1 H1) as (i1 & Hi1 & Hn1).
  destruct (Hform v2 H2) as (i2 & Hi2 & Hn2).
  rewrite (checkpoint_name_scoped self v1 _ i1 Hsc Hi1 Hn1) in Heq.
  rewrite (checkpoint_name_scoped self v2 _ i2 Hsc Hi2 Hn2) in Heq.
  apply append_inj_r in Heq. apply (append_inj_r "/") in Heq.
  rewrite Hn1, Hn2, Heq. reflexivity.
Qed.

Lemma fold_insert_size (key : TfVar -> string) (vars : list TfVar) (d0 : gmap string TfVar) :
  NoDup (map key vars) ->
  (forall v, In v vars -> d0 !! key v = None) ->
  size (fold_left (fun d v => <[key v := v]> d) vars d0) = size d0 + length vars.
Proof.
  revert d0. induction vars as [| v vars IH]; intros d0 Hnd Hfresh.
  - cbn. lia.
  - cbn [fold_left map length] in *. apply NoDup_cons in Hnd as [Hnotin Hnd].
    rewrite IH.
    + rewrite map_size_insert_None by (apply Hfresh; left; reflexivity). lia.
    + exact Hnd.
    + intros v' Hin. rewrite lookup_insert_ne.
      * apply Hfresh. right. exact Hin.
      * intros Heq. apply Hnotin. rewrite Heq. apply list_elem_of_In.
        apply in_map. exact Hin.
Qed.

(** When the selected variables have pairwise distinct checkpoint names, the
    dictionary has one entry for each of them. *)
Lemma get_variable_name_dict_size (w : World) (self : NoteRNNLoader) :
  NoDup (map (checkpoint_name self) (variables w self)) ->
  size (get_variable_name_dict w self) = length (variables w self).
Proof.
  intros Hnd. unfold get_variable_name_dict.
  rewrite fold_insert_size; [rewrite map_size_empty; reflexivity | exact Hnd |].
  intros v _. apply lookup_empty.
Qed.

(** The variables created under the instance's own scope, and no others: the
    map is a bijection between them and their checkpoint names. *)
Lemma name_dict_bijection_when_scoped (w : World) (self : NoteRNNLoader) :
  occurs "/" (scope self) = false ->
  NoDup (map name (variables w self)) ->
  (forall v, In v (variables w self) ->
             exists inner, occurs ":" inner = false
                           /\ name v = scoped_name (scope self) inner) ->
  (forall v, In v (variables w self) ->
             get_variable_name_dict w self !! checkpoint_name self v = Some v)
  /\ (forall k v, get_variable_name_dict w self !! k = Some v ->
                  In v (variables w self) /\ checkpoint_name self v = k)
  /\ size (get_variable_name_dict w self) = length (variables w self).
Proof.
  intros Hsc Hnd Hform.
  assert (Hname : forall v1 v2, In v1 (variables w self) -> In v2 (variables w self) ->
                    checkpoint_name self v1 = checkpoint_name self v2 -> name v1 = name v2).
  { exact (checkpoint_name_injective_scoped self (variables w self) Hsc Hform). }
  assert (Hkeys : NoDup (map (checkpoint_name self) (variables w self))).
  { revert Hnd Hname. generalize (variables w self) as vs.
    induction vs as [| v vs IH]; intros Hnd Hname; [constructor|].
    cbn [map] in *. apply NoDup_cons in Hnd as [Hnotin Hnd]. apply NoDup_cons. split.
    - intros Hin. apply list_elem_of_In in Hin. apply in_map_iff in Hin as (v' & Hk & Hin').
      apply Hnotin. apply list_elem_of_In. apply in_map_iff. exists v'. split; [|exact Hin'].
      apply Hname; [right; exact Hin' | left; reflexivity | exact Hk].
    - apply IH; [exact Hnd|]. intros v1 v2 H1 H2. apply Hname; right; assumption. }
  assert (Hinj : forall v1 v2, In v1 (variables w self) -> In v2 (variables w self) ->
                   checkpoint_name self v1 = checkpoint_name self v2 -> v1 = v2).
  { revert Hkeys. generalize (variables w self) as vs.
    induction vs as [| v vs IH]; intros Hk v1 v2 H1 H2 Heq; [destruct H1|].
    cbn [map] in Hk. apply NoDup_cons in Hk as [Hnotin Hk].
    destruct H1 as [<- | H1], H2 as [<- | H2].
    - reflexivity.
    - exfalso. apply Hnotin. rewrite Heq. apply list_elem_of_In. apply in_map. exact H2.
    - exfalso. apply Hnotin. rewrite <- Heq. apply list_elem_of_In. apply in_map. exact H1.
    - apply IH; assumption. }
  split; [exact (get_variable_name_dict_injective w self Hinj)|].
  split; [exact (get_variable_name_dict_entries w self)|].
  exact (get_variable_name_dict_size w self Hkeys).
Qed.

(** ** The recurrent loop and the session run *)

Lemma rnn_loop_state_length (c : Cell.t) (sess : Session) (xs : Tensor2) (len : nat)
      (st : Tensor1) :
  cell_ok c -> length st = Cell.state_size c ->
  length (snd (tf.rnn_loop c sess xs len st)) = Cell.state_size c.
Proof.
  intros Hc. revert len st. induction xs as [| x xs IH]; intros len st Hst; [exact Hst|].
  destruct len as [| len]; [exact Hst|].
  cbn [tf.rnn_loop].
  pose proof (Hc sess x st Hst) as Hstep.
  destruct (Cell.call c sess x st) as [o st'].
  specialize (IH len st' Hstep).
  destruct (tf.rnn_loop c sess xs len st') as [os stf]. exact IH.
Qed.

Lemma rnn_batch_states (c : Cell.t) (sess : Session) (m_seq : Tensor3) (lens : list nat)
      (init : Tensor2) :
  cell_ok c ->
  Forall (fun row => length row = Cell.state_size c) init ->
  Forall (fun row => length row = Cell.state_size c) (snd (tf.rnn_batch c sess m_seq lens init))
  /\ (length m_seq = length lens -> length m_seq = length init ->
      length (snd (tf.rnn_batch c sess m_seq lens init)) = length init).
Proof.
  intros Hc. revert lens init.
  induction m_seq as [| xs m_seq IH]; intros lens init Hinit.
  - split; [constructor|]. cbn. intros _ H. exact H.
  - destruct lens as [| len lens]; [split; [constructor | discriminate]|].
    destruct init as [| st init]; [split; [constructor | discriminate]|].
    cbn [tf.rnn_batch]. inversion Hinit as [| ? ? Hst Hrest]; subst.
    pose proof (rnn_loop_state_length c sess xs len st Hc Hst) as Hloop.
    destruct (tf.rnn_loop c sess xs len st) as [os stf].
    destruct (IH lens init Hrest) as [Hall Hlen].
    destruct (tf.rnn_batch c sess m_seq lens init) as [outs sts].
    cbn in *. split.
    + constructor; assumption.
    + intros H1 H2. f_equal. apply Hlen; congruence.
Qed.

Lemma forallb_feed_rows (n : nat) (m : Tensor2) :
  tf.feed_rows_ok n m = true -> Forall (fun row => length row = n) m.
Proof.
  unfold tf.feed_rows_ok. intros H. apply List.Forall_forall. intros row Hin.
  rewrite forallb_forall in H. apply Nat.eqb_eq. apply H. exact Hin.
Qed.

Lemma softmax_and_state_tensor_shape (w : World) (self : NoteRNNLoader) (c : Cell.t)
      (sess : Session) (m_seq : Tensor3) (lens : list nat) (init sm st : Tensor2) :
  cell_ok c ->
  Forall (fun row => length row = Cell.state_size c) init ->
  softmax_and_state_tensor w self c sess m_seq lens init = inr (sm, st) ->
  length st = length init /\ Forall (fun row => length row = Cell.state_size c) st.
Proof.
  intros Hc Hinit. unfold softmax_and_state_tensor, run_network_on_melody, tf.dynamic_rnn.
  destruct (Nat.eqb (length m_seq) (length lens) && Nat.eqb (length m_seq) (length init))
    eqn:Hdims; cbn [exc_bind].
  - apply andb_true_iff in Hdims as [H1 H2].
    apply Nat.eqb_eq in H1. apply Nat.eqb_eq in H2.
    destruct (rnn_batch_states c sess m_seq lens init Hc Hinit) as [Hall Hlen].
    specialize (Hlen H1 H2).
    destruct (tf.rnn_batch c sess m_seq lens init) as [outputs final_state].
    cbn in *. destruct (softmax_within_graph self); cbn; intros [= <- <-]; auto.
  - destruct (softmax_within_graph self); discriminate.
Qed.

Lemma session_run_self (w : World) (init : Tensor2) (m : Tensor3) (lens : list nat)
      (self : NoteRNNLoader) :
  res_self (session_run w init m lens self) = self.
Proof.
  unfold session_run. monad_unfold. repeat step_match; reflexivity.
Qed.

Lemma session_run_state_shape (w : World) (init : Tensor2) (m : Tensor3) (lens : list nat)
      (self : NoteRNNLoader) (c : Cell.t) (sm st : Tensor2) :
  cell_ok c -> cell self = Some c ->
  res_val (session_run w init m lens self) = inr (sm, st) ->
  length st = length init /\ Forall (fun row => length row = Cell.state_size c) st.
Proof.
  intros Hc Hcell. unfold session_run. monad_unfold. rewrite Hcell.
  destruct (session self) as [sess |]; monad_unfold; [|discriminate].
  destruct (tf.feed_seq_ok _ m && tf.feed_rows_ok (Cell.state_size c) init) eqn:Hfeed;
    monad_unfold; [|discriminate].
  apply andb_true_iff in Hfeed as [_ Hrows]. apply forallb_feed_rows in Hrows.
  destruct (softmax_and_state_tensor w self c sess m lens init) as [e | [sm' st']] eqn:Hrun;
    cbn; [discriminate|].
  intros [= <- <-]. exact (softmax_and_state_tensor_shape w self c sess m lens init _ _ Hc Hrows Hrun).
Qed.


(** ** What the methods leave unchanged *)

Lemma frame_refl (self : NoteRNNLoader) : frame self self.
Proof. repeat split. Qed.

Lemma frame_trans (s1 s2 s3 : NoteRNNLoader) : frame s1 s2 -> frame s2 s3 -> frame s1 s3.
Proof. unfold frame. intuition congruence. Qed.

Lemma load_primer_frame (w : World) (self : NoteRNNLoader) :
  frame self (res_self (load_primer w self))
  /\ session (res_self (load_primer w self)) = session self.
Proof.
  unfold load_primer. monad_unfold. repeat step_match; repeat split.
Qed.

Lemma restore_vars_from_checkpoint_frame (w : World) (dir : string) (self : NoteRNNLoader) :
  frame self (res_self (restore_vars_from_checkpoint w dir self))
  /\ primer (res_self (restore_vars_from_checkpoint w dir self)) = primer self.
Proof.
  unfold restore_vars_from_checkpoint. monad_unfold. repeat step_match; repeat split.
Qed.

Lemma initialize_new_frame (w : World) (sess : option Session) (self : NoteRNNLoader) :
  frame self (res_self (initialize_new w sess self))
  /\ primer (res_self (initialize_new w sess self)) = primer self
  /\ exists s, session (res_self (initialize_new w sess self)) = Some s.
Proof.
  unfold initialize_new. monad_unfold. repeat step_match; repeat split; eauto.
Qed.

Lemma run_training_batch_self (w : World) (self : NoteRNNLoader) :
  res_self (run_training_batch w self) = self.
Proof.
  unfold run_training_batch. monad_unfold. repeat step_match; reflexivity.
Qed.

Lemma get_note_from_softmax_self (a : ndarray) (self : NoteRNNLoader) :
  res_self (get_note_from_softmax a self) = self.
Proof. rewrite get_note_from_softmax_eq. reflexivity. Qed.


Ltac run_session Hrun :=
  match goal with
  | |- context [session_run ?w ?i ?m ?l ?s] =>
      let Hs := fresh "Hs" in
      pose proof (session_run_self w i m l s) as Hs;
      destruct (session_run w i m l s) as [? ? [? | [? ?]]] eqn:Hrun;
      cbn in Hs; subst; monad_unfold
  end.

Ltac run_note :=
  match goal with
  | |- context [get_note_from_softmax ?a ?s] =>
      rewrite (get_note_from_softmax_eq a s); monad_unfold
  end.

Lemma prime_model_stepped (w : World) (b : bool) (self : NoteRNNLoader) :
  stepped w self (res_self (prime_model w b self)).
Proof.
  unfold prime_model, stepped. monad_unfold.
  destruct b; monad_unfold.
  all: destruct (primer self) as [p |] eqn:Hp; monad_unfold; [|repeat split; auto].
  all: destruct (encoder_encode w p) as [e | inputs]; monad_unfold; [repeat split; auto|].
  all: run_session Hrun; [repeat split; auto|].
  all: destruct (np.last_row _) as [e | row]; monad_unfold;
    [repeat split; auto; right; do 3 eexists; rewrite Hrun; reflexivity|].
  all: run_note.
  all: repeat step_match; repeat split; auto; right; do 3 eexists; rewrite Hrun; reflexivity.
Qed.

Lemma get_next_note_from_note_stepped (w : World) (note : Tensor1) (self : NoteRNNLoader) :
  stepped w self (res_self (get_next_note_from_note w note self)).
Proof.
  unfold get_next_note_from_note, stepped. monad_unfold.
  destruct (np.reshape3 _ _ _ _) as [e | input_batch]; monad_unfold; [repeat split; auto|].
  run_session Hrun; [repeat split; auto|].
  run_note.
  repeat step_match; repeat split; auto; right; do 3 eexists; rewrite Hrun; reflexivity.
Qed.


Lemma frame_shape (w : World) (self self' : NoteRNNLoader) :
  has_state_shape w self -> frame self self' -> has_state_shape w self'.
Proof.
  intros (Hb & hp & Hc & Hlen & Hrows) (Fb & Fc & _ & Fs).
  split; [congruence|]. exists hp. rewrite Fc, Fs. auto.
Qed.

Lemma stepped_shape (w : World) (self self' : NoteRNNLoader) :
  (forall hp, cell_ok (make_cell w hp)) ->
  has_state_shape w self -> stepped w self self' -> has_state_shape w self'.
Proof.
  intros Hok (Hb & hp & Hc & Hlen & Hrows) (Sb & Sc & _ & _ & _ & Hstate).
  split; [congruence|]. exists hp. rewrite Sc. split; [exact Hc|].
  destruct Hstate as [-> | (m & lens & sm & Hrun)]; [auto|].
  destruct (session_run_state_shape w _ m lens self _ sm _ (Hok hp) Hc Hrun) as [H1 H2].
  split; [congruence | exact H2].
Qed.

Lemma restore_initialize_prime_stepped (w : World) (sess : Session) (self : NoteRNNLoader) :
  exists mid, frame self mid
              /\ stepped w mid (res_self (restore_initialize_prime w sess self)).
Proof.
  unfold restore_initialize_prime. monad_unfold.
  destruct (checkpoint_dir self) as [dir |]; monad_unfold.
  - pose proof (restore_vars_from_checkpoint_frame w dir (set_session (Some sess) self))
      as [Hf _].
    destruct (restore_vars_from_checkpoint w dir (set_session (Some sess) self))
      as [s1 l1 [e | []]]; cbn in Hf |- *.
    + exists s1. split; [exact Hf|]. unfold stepped. auto 10.
    + pose proof (prime_model_stepped w false s1) as Hp.
      destruct (prime_model w false s1) as [s2 l2 v2]; cbn in Hp |- *.
      exists s1. split; [exact Hf | exact Hp].
  - exists (set_session (Some sess) self). split; [repeat split|]. unfold stepped. auto 10.
Qed.

Lemma initialize_and_restore_frame (w : World) (sess : Session) (self : NoteRNNLoader) :
  frame self (res_self (initialize_and_restore w sess self)).
Proof.
  unfold initialize_and_restore. monad_unfold.
  destruct (checkpoint_dir self) as [dir |]; monad_unfold; [|repeat split].
  pose proof (restore_vars_from_checkpoint_frame w dir (set_session (Some sess) self))
    as [Hf _].
  destruct (restore_vars_from_checkpoint w dir (set_session (Some sess) self))
    as [s1 l1 [e | []]]; cbn in Hf |- *; exact Hf.
Qed.


(** ** Construction *)

Lemma construct_success (w : World) (a : InitArgs) (self : NoteRNNLoader) (log : list Event) :
  construct w a = mkRes self log (inr tt) ->
  let hp := match arg_hparams a with Some hp => hp | None => default_hparams w end in
  batch_size self = 1 /\ session self = None /\ hparams self = hp
  /\ cell self = Some (make_cell w hp)
  /\ state_value self = np.zeros 1 (Cell.state_size (make_cell w hp))
  /\ training_file_list self = arg_training_file_list a
  /\ midi_primer self = arg_midi_primer a
  /\ backup_checkpoint_file self = arg_backup_checkpoint_file a
  /\ scope self = arg_scope a /\ checkpoint_scope self = arg_checkpoint_scope a
  /\ checkpoint_dir self = None /\ priming_note self = None.
Proof.
  destruct a as [g sc dir mp tfl ohp bk swg cs bp].
  unfold construct, __init__, build_graph, get_zero_state, load_primer, new_object.
  monad_unfold.
  repeat step_match.
  all: intros H; try discriminate H.
  all: injection H as <- <-; cbn.
  all: repeat split; try reflexivity; try congruence.
Qed.

Lemma zeros_shape (n : nat) :
  length (np.zeros 1 n) = 1 /\ Forall (fun row => length row = n) (np.zeros 1 n).
Proof.
  unfold np.zeros. cbn. split; [reflexivity|].
  constructor; [apply length_replicate | constructor].
Qed.

Lemma construct_shape (w : World) (a : InitArgs) (self : NoteRNNLoader) (log : list Event) :
  construct w a = mkRes self log (inr tt) -> has_state_shape w self.
Proof.
  intros H. destruct (construct_success w a self log H) as (Hb & _ & _ & Hc & Hs & _).
  split; [exact Hb|]. eexists. split; [exact Hc|]. rewrite Hs. apply zeros_shape.
Qed.

Lemma reachable_shape (w : World) :
  (forall hp, cell_ok (make_cell w hp)) ->
  forall self, reachable w self -> has_state_shape w self.
Proof.
  intros Hok self Hreach. induction Hreach.
  - eapply construct_shape; eassumption.
  - eapply frame_shape; [eassumption | repeat split].
  - eapply frame_shape; [eassumption | apply initialize_new_frame].
  - eapply frame_shape; [eassumption | apply initialize_and_restore_frame].
  - destruct (restore_initialize_prime_stepped w sess self) as (mid & Hf & Hs).
    eapply stepped_shape; [exact Hok | | exact Hs]. eapply frame_shape; eassumption.
  - eapply frame_shape; [eassumption | apply restore_vars_from_checkpoint_frame].
  - eapply frame_shape; [eassumption | apply load_primer_frame].
  - eapply stepped_shape; [exact Hok | eassumption | apply prime_model_stepped].
  - rewrite get_note_from_softmax_self. assumption.
  - rewrite run_training_batch_self. assumption.
  - eapply stepped_shape; [exact Hok | eassumption | apply get_next_note_from_note_stepped].
Qed.


(** ** Single steps *)

Lemma reshape3_single (note : Tensor1) (n : nat) :
  length note = n -> np.reshape3 note 1 1 n = inr [[note]].
Proof.
  intros H. unfold np.reshape3.
  replace (1 * 1 * n) with n by lia.
  rewrite H, Nat.eqb_refl. cbn [Nat.mul Nat.add np.chunk].
  rewrite <- H, firstn_all. reflexivity.
Qed.

Lemma reshape3_wrong_size (note : Tensor1) (n : nat) :
  length note <> n -> exists msg, np.reshape3 note 1 1 n = inl (ValueError msg).
Proof.
  intros H. unfold np.reshape3. replace (1 * 1 * n) with n by lia.
  destruct (Nat.eqb_spec (length note) n) as [Heq | _]; [contradiction|].
  eexists. reflexivity.
Qed.

(** The trace of a session run: the call with its feeds, once the session and
    the cell are there. *)
Lemma session_run_log (w : World) (init : Tensor2) (m : Tensor3) (lens : list nat)
      (self : NoteRNNLoader) (sess : Session) (c : Cell.t) :
  session self = Some sess -> cell self = Some c ->
  res_log (session_run w init m lens self) = [SessionRun init m lens].
Proof.
  intros Hs Hc. unfold session_run. monad_unfold. rewrite Hs, Hc. monad_unfold.
  repeat step_match; reflexivity.
Qed.

Lemma session_run_log_any (w : World) (init : Tensor2) (m : Tensor3) (lens : list nat)
      (self : NoteRNNLoader) :
  fed_initial_states (res_log (session_run w init m lens self)) = []
  \/ fed_initial_states (res_log (session_run w init m lens self)) = [init].
Proof.
  unfold session_run. monad_unfold. repeat step_match; auto.
Qed.

(** One step on a batch of one: the cell is applied once. *)
Lemma session_run_single (w : World) (self : NoteRNNLoader) (sess : Session) (c : Cell.t)
      (st note : Tensor1) :
  session self = Some sess -> cell self = Some c ->
  length note = HParams.one_hot_length (hparams self) ->
  length st = Cell.state_size c ->
  session_run w [st] [[note]] [1] self =
  mkRes self [SessionRun [st] [[note]] [1]]
    (inr ([softmax_fn w (legacy_linear w sess (fst (Cell.call c sess note st))
                                       (HParams.one_hot_length (hparams self)))],
          [snd (Cell.call c sess note st)])).
Proof.
  intros Hs Hc Hnote Hst. unfold session_run. monad_unfold. rewrite Hs, Hc. monad_unfold.
  unfold tf.feed_seq_ok, tf.feed_rows_ok. cbn [forallb].
  rewrite Hnote, Hst, !Nat.eqb_refl. cbn [andb]. monad_unfold.
  unfold softmax_and_state_tensor, run_network_on_melody, tf.dynamic_rnn.
  cbn [length Nat.eqb andb exc_bind tf.rnn_batch tf.rnn_loop].
  destruct (Cell.call c sess note st) as [o st'].
  cbn. destruct (softmax_within_graph self); reflexivity.
Qed.


(** Without the vocabulary of the hyperparameters being [NUM_CLASSES] the step
    raises: whatever is reshaped to [NUM_CLASSES] entries does not fit the
    placeholder. *)
Lemma get_next_note_from_note_vocabulary_mismatch (w : World) (self : NoteRNNLoader)
      (sess : Session) (c : Cell.t) (st note : Tensor1) :
  ready self sess c st ->
  HParams.one_hot_length (hparams self) <> rl_tuner_ops.NUM_CLASSES ->
  exists msg, res_val (get_next_note_from_note w note self) = inl (ValueError msg)
              /\ state_value (res_self (get_next_note_from_note w note self))
                 = state_value self.
Proof.
  intros (Hs & Hc & Hb & Hstate & Hst) Hhp.
  unfold get_next_note_from_note. monad_unfold. rewrite Hb.
  destruct (Nat.eq_dec (length note) rl_tuner_ops.NUM_CLASSES) as [Hnote | Hnote].
  - rewrite (reshape3_single note _ Hnote). monad_unfold.
    unfold session_run. monad_unfold. rewrite Hs, Hc. monad_unfold.
    unfold tf.feed_seq_ok, tf.feed_rows_ok. cbn [forallb]. rewrite Hnote.
    destruct (Nat.eqb_spec rl_tuner_ops.NUM_CLASSES (HParams.one_hot_length (hparams self)))
      as [Heq | _]; [congruence|].
    cbn. eexists. split; reflexivity.
  - destruct (reshape3_wrong_size note _ Hnote) as (msg & ->). monad_unfold.
    eexists. split; reflexivity.
Qed.


(** ** Priming *)

Lemma prime_model_log (w : World) (b : bool) (self : NoteRNNLoader) :
  can_prime w self ->
  fed_initial_states (res_log (prime_model w b self)) = [state_value self].
Proof.
  intros ((sess & Hs) & (c & Hc) & p & inputs & Hp & Henc).
  unfold prime_model. monad_unfold. rewrite Hp.
  destruct b; monad_unfold; rewrite Henc; monad_unfold.
  all: match goal with
       | |- context [session_run ?w ?i ?m ?l ?s] =>
           pose proof (session_run_log w i m l s sess c Hs Hc) as Hlog;
           pose proof (session_run_self w i m l s) as Hself;
           destruct (session_run w i m l s) as [s1 l1 [e | [sm st]]]
       end; cbn in Hlog, Hself; subst; monad_unfold; [reflexivity|].
  all: destruct (np.last_row sm) as [e | row]; monad_unfold; [reflexivity|].
  all: rewrite get_note_from_softmax_eq; monad_unfold.
  all: repeat step_match; reflexivity.
Qed.

Lemma stepped_can_prime (w : World) (self self' : NoteRNNLoader) :
  can_prime w self -> stepped w self self' -> can_prime w self'.
Proof.
  intros (Hs & Hc & Hp) (_ & Sc & _ & Ss & Sp & _).
  unfold can_prime. rewrite Sc, Ss, Sp. auto.
Qed.

Lemma prime_model_no_primer (w : World) (b : bool) (self : NoteRNNLoader) :
  primer self = None ->
  res_val (prime_model w b self) = inl (AttributeError "primer")
  /\ res_self (prime_model w b self) = self
  /\ fed_initial_states (res_log (prime_model w b self)) = [].
Proof.
  intros Hp. unfold prime_model. monad_unfold. rewrite Hp.
  destruct b; monad_unfold; auto.
Qed.

Lemma restore_initialize_prime_no_checkpoint_dir (w : World) (sess : Session)
      (self : NoteRNNLoader) :
  checkpoint_dir self = None ->
  restore_initialize_prime w sess self =
  mkRes (set_session (Some sess) self) [] (inl (AttributeError "checkpoint_dir")).
Proof.
  intros Hd. unfold restore_initialize_prime. monad_unfold. rewrite Hd. reflexivity.
Qed.

Lemma restore_initialize_prime_no_primer (w : World) (sess : Session)
      (self : NoteRNNLoader) :
  primer self = None ->
  exists e, res_val (restore_initialize_prime w sess self) = inl e.
Proof.
  intros Hp. unfold restore_initialize_prime. monad_unfold.
  destruct (checkpoint_dir self) as [dir |]; monad_unfold; [|eauto].
  pose proof (restore_vars_from_checkpoint_frame w dir (set_session (Some sess) self))
    as [_ Hprimer].
  destruct (restore_vars_from_checkpoint w dir (set_session (Some sess) self))
    as [s1 l1 [e | []]]; cbn in Hprimer |- *; [eauto|].
  assert (Hp1 : primer s1 = None) by congruence.
  destruct (prime_model_no_primer w false s1 Hp1) as (Hv & _ & _).
  destruct (prime_model w false s1) as [s2 l2 v2]; cbn in Hv |- *. subst v2. eauto.
Qed.

Lemma construct_missing_primer (w : World) (a : InitArgs) (self : NoteRNNLoader)
      (log : list Event) (p : string) :
  construct w a = mkRes self log (inr tt) ->
  arg_midi_primer a = Some p -> path_exists w p = false ->
  primer self = None
  /\ In (LogWarn "ERROR! No such primer file exists! %s" [p]) log.
Proof.
  destruct a as [g sc dir mp tfl ohp bk swg cs bp]. cbn [arg_midi_primer].
  intros H -> Hpath. revert H.
  unfold construct, __init__, build_graph, get_zero_state, load_primer, new_object.
  monad_unfold.
  repeat step_match.
  all: try (rewrite Hpath in *; discriminate).
  all: intros H; try discriminate H.
  all: injection H as <- <-; cbn.
  all: split; [reflexivity|]. all: auto 10.
Qed.

(** Construction with a primer path where there is no file cannot fail at the
    primer: when the graph is built, the constructor returns. *)
Lemma construct_missing_primer_returns (w : World) (a : InitArgs) (p : string) :
  arg_midi_primer a = Some p -> path_exists w p = false ->
  arg_training_file_list a = None ->
  rnn_layer_sizes_last (match arg_hparams a with
                        | Some hp => hp
                        | None => default_hparams w
                        end) <> None ->
  exists self log, construct w a = mkRes self log (inr tt).
Proof.
  destruct a as [g sc dir mp tfl ohp bk swg cs bp].
  cbn [arg_midi_primer arg_training_file_list arg_hparams].
  intros -> Hpath -> Hlast.
  unfold construct, __init__, build_graph, get_zero_state, load_primer, new_object.
  monad_unfold.
  destruct ohp as [hp |]; monad_unfold.
  all: match goal with
       | |- context [rnn_layer_sizes_last ?h] => destruct (rnn_layer_sizes_last h)
       end; [|contradiction].
  all: monad_unfold; rewrite Hpath; monad_unfold; eauto.
Qed.


(** ** The small world is well formed *)

Lemma toy_layers_ok : layers_ok Toy.world.
Proof.
  split.
  - intros sess row n. cbn. unfold Toy.linear.
    rewrite length_firstn. cbn [length]. rewrite length_app, length_replicate. lia.
  - intros row. reflexivity.
Qed.

Lemma toy_cell_ok (hp : HParams.t) : cell_ok (make_cell Toy.world hp).
Proof.
  intros sess x st Hst. cbn. rewrite length_map. exact Hst.
Qed.

Lemma toy_construct (a : InitArgs) :
  res_val (construct Toy.world a) = inr tt ->
  construct Toy.world a
  = mkRes (res_self (construct Toy.world a)) (res_log (construct Toy.world a)) (inr tt).
Proof.
  destruct (construct Toy.world a) as [s l v]. cbn. intros ->. reflexivity.
Qed.

(** ** The variable-name map (C1, C2) *)

(** C1 (failing input).  In a graph that holds the variables of two models
    scoped "q_network" and "q_network_target", the instance scoped "q_network"
    selects the variables of both; the checkpoint name of its own variable
    "q_network/fully_connected/weights:0" is "rnn_model/fully_connected/weights",
    and under that name the map holds the other model's variable, not this
    one. *)
Theorem name_dict_entry_taken_by_other_scope :
  let w := Toy.shared_world in
  let self := res_self (construct w Toy.args) in
  let v := mkVar "q_network/fully_connected/weights:0" [100; 38] in
  let v' := mkVar "q_network_target/fully_connected/weights:0" [100; 38] in
  scope self = "q_network"
  /\ In v (variables w self)
  /\ checkpoint_name self v = "rnn_model/fully_connected/weights"
  /\ get_variable_name_dict w self !! checkpoint_name self v = Some v'
  /\ v' <> v.
Proof.
  cbv zeta. split; [reflexivity|]. split; [vm_compute; tauto|].
  split; [reflexivity|]. split; [vm_compute; reflexivity|]. discriminate.
Qed.

(** C2 (failing input).  In the same graph the instance scoped "q_network"
    selects eight variables, two of which are distinct and produce the same
    checkpoint name; the map has four entries, so it is not one-to-one on the
    selected variables. *)
Theorem name_dict_not_one_to_one :
  let w := Toy.shared_world in
  let self := res_self (construct w Toy.args) in
  let v := mkVar "q_network/fully_connected/bias:0" [38] in
  let v' := mkVar "q_network_target/fully_connected/bias:0" [38] in
  In v (variables w self) /\ In v' (variables w self) /\ v <> v'
  /\ checkpoint_name self v = checkpoint_name self v'
  /\ length (variables w self) = 8
  /\ size (get_variable_name_dict w self) = 4.
Proof.
  cbv zeta. split; [vm_compute; tauto|]. split; [vm_compute; tauto|].
  split; [discriminate|]. split; [reflexivity|]. split; [reflexivity|].
  vm_compute. reflexivity.
Qed.

(** The condition is met by the graph that holds this model alone. *)
Example name_dict_bijection_own_graph :
  let self := Toy.fresh Toy.args in
  size (get_variable_name_dict Toy.world self) = 4
  /\ length (variables Toy.world self) = 4
  /\ get_variable_name_dict Toy.world self !! "rnn_model/fully_connected/bias"
     = Some (mkVar "q_network/fully_connected/bias:0" [38]).
Proof. cbv zeta. repeat split; vm_compute; reflexivity. Qed.

(** ** Checkpoint resolution (C3) *)

(** C3 (counterexample).  With no checkpoint under the directory and no backup
    path, the method does not stop with an error of its own: it hands the
    absent path to [saver.restore], and the exception that comes back is the
    one raised inside that library call. *)
Lemma restore_without_any_checkpoint_reaches_saver :
  let w := Toy.world in
  let self := Toy.fresh Toy.args in
  let r := restore_vars_from_checkpoint w "elsewhere" self in
  latest_checkpoint w "elsewhere" = None
  /\ backup_checkpoint_file self = None
  /\ restored_paths (res_log r) = [None]
  /\ res_val r = exc_bind (saver_restore w (mkSaver (get_variable_name_dict w self))
                                         (session self) None)
                          (fun _ => inr tt)
  /\ res_val r = inl (LibraryError "tensorflow" "restore called with an absent save path").
Proof.
  cbv zeta. repeat split; vm_compute; reflexivity.
Qed.

(** C3 (amended).  The path handed to [saver.restore] is the latest checkpoint
    of the directory when there is one and the backup path otherwise, also when
    the backup path is absent; [saver.restore] is called once with it, and the
    method returns or raises what that call returns or raises. *)
Theorem restore_vars_from_checkpoint_resolution (w : World) (dir : string)
        (self : NoteRNNLoader) :
  check_saver w (get_variable_name_dict w self) = inr tt ->
  let chosen := match latest_checkpoint w dir with
                | Some f => Some f
                | None => backup_checkpoint_file self
                end in
  let r := restore_vars_from_checkpoint w dir self in
  restored_paths (res_log r) = [chosen]
  /\ match saver_restore w (mkSaver (get_variable_name_dict w self)) (session self) chosen with
     | inl e => res_val r = inl e /\ res_self r = self
     | inr sess => res_val r = inr tt /\ res_self r = set_session (Some sess) self
     end.
Proof.
  intros Hsaver. cbv zeta. unfold restore_vars_from_checkpoint. monad_unfold.
  rewrite Hsaver. monad_unfold.
  destruct (latest_checkpoint w dir) as [f |]; monad_unfold.
  - destruct (saver_restore w _ (session self) (Some f)) as [e | sess]; cbn; auto.
  - destruct (saver_restore w _ (session self) (backup_checkpoint_file self)) as [e | sess];
      cbn; auto.
Qed.

Lemma restore_vars_from_checkpoint_resolution_witness :
  restored_paths (res_log (restore_vars_from_checkpoint Toy.world "experiment/train"
                             (Toy.fresh Toy.args)))
  = [Some "experiment/train/model.ckpt-10"]
  /\ restored_paths (res_log (restore_vars_from_checkpoint Toy.world "elsewhere"
                                (Toy.fresh (Toy.with_backup (Some "backup.ckpt") Toy.args))))
     = [Some "backup.ckpt"].
Proof.
  split.
  - exact (proj1 (restore_vars_from_checkpoint_resolution Toy.world "experiment/train"
                    (Toy.fresh Toy.args) eq_refl)).
  - exact (proj1 (restore_vars_from_checkpoint_resolution Toy.world "elsewhere"
                    (Toy.fresh (Toy.with_backup (Some "backup.ckpt") Toy.args)) eq_refl)).
Defined.

(** ** The most probable note (C4) *)

(** C4 (counterexample).  An instance configured with a vocabulary of three
    notes gets a vector of 38 entries for a distribution over its three
    notes. *)
Lemma get_note_from_softmax_length_not_vocabulary :
  let hp := HParams.mk 2 3 [100] in
  let self := Toy.fresh (Toy.with_hparams (Some hp) Toy.args) in
  let r := get_note_from_softmax (Arr1 [1 # 4; 1 # 2; 1 # 4]%Q) self in
  HParams.one_hot_length (hparams self) = 3
  /\ exists v, res_val r = inr v
               /\ length v = 38
               /\ length v <> HParams.one_hot_length (hparams self).
Proof.
  cbv zeta. split; [reflexivity|].
  eexists. split; [vm_compute; reflexivity|]. split; [reflexivity|].
  vm_compute. discriminate.
Qed.

(** C4 (amended).  For a non-empty distribution the method returns, without
    touching the instance, a vector of [rl_tuner_ops.NUM_CLASSES] entries;
    when the arg-max index of the distribution (the first index of a maximum)
    is below [NUM_CLASSES], the vector is one-hot at that index. *)
Theorem get_note_from_softmax_one_hot (self : NoteRNNLoader) (softmax : Tensor1) :
  softmax <> [] ->
  exists i v,
    first_argmax softmax i
    /\ get_note_from_softmax (Arr1 softmax) self = mkRes self [] (inr v)
    /\ length v = rl_tuner_ops.NUM_CLASSES
    /\ (i < rl_tuner_ops.NUM_CLASSES -> one_hot v rl_tuner_ops.NUM_CLASSES i).
Proof.
  intros Hne.
  destruct (argmax_first (Arr1 softmax) Hne) as (i & Hi & Hfirst).
  exists i, (unit_vector rl_tuner_ops.NUM_CLASSES i).
  split; [exact Hfirst|]. split.
  - rewrite get_note_from_softmax_eq, Hi. reflexivity.
  - split; [apply unit_vector_length | apply unit_vector_one_hot].
Qed.

Lemma get_note_from_softmax_one_hot_witness :
  exists i v,
    first_argmax [1 # 4; 3 # 8; 3 # 8]%Q i
    /\ get_note_from_softmax (Arr1 [1 # 4; 3 # 8; 3 # 8]%Q) (Toy.fresh Toy.args)
       = mkRes (Toy.fresh Toy.args) [] (inr v)
    /\ length v = rl_tuner_ops.NUM_CLASSES
    /\ (i < rl_tuner_ops.NUM_CLASSES -> one_hot v rl_tuner_ops.NUM_CLASSES i).
Proof.
  apply (get_note_from_softmax_one_hot (Toy.fresh Toy.args) [1 # 4; 3 # 8; 3 # 8]%Q).
  discriminate.
Defined.

(** On an exact tie the lower index is returned. *)
Example get_note_from_softmax_tie :
  res_val (get_note_from_softmax (Arr1 [1 # 4; 3 # 8; 3 # 8]%Q) (Toy.fresh Toy.args))
  = inr (unit_vector rl_tuner_ops.NUM_CLASSES 1).
Proof. vm_compute. reflexivity. Qed.

(** ** Training batches (C7, C8) *)

(** C7.  With no training file list the method logs one warning and returns
    [None]: no exception, no queue runner started, no session run, and the
    instance, with its Recurrent State Vector, is what it was. *)
Theorem run_training_batch_unconfigured (w : World) (self : NoteRNNLoader) :
  training_file_list self = None ->
  let r := run_training_batch w self in
  res_val r = inr None
  /\ res_log r = [LogWarn "No training file path was provided, cannot run trainingbatch" []]
  /\ res_self r = self
  /\ state_value (res_self r) = state_value self.
Proof.
  intros H. cbv zeta. unfold run_training_batch. monad_unfold. rewrite H. monad_unfold.
  auto.
Qed.

Lemma run_training_batch_unconfigured_witness :
  let r := run_training_batch Toy.world (Toy.fresh Toy.args) in
  res_val r = inr None
  /\ res_log r = [LogWarn "No training file path was provided, cannot run trainingbatch" []]
  /\ res_self r = Toy.fresh Toy.args
  /\ state_value (res_self r) = state_value (Toy.fresh Toy.args).
Proof.
  apply (run_training_batch_unconfigured Toy.world (Toy.fresh Toy.args)). reflexivity.
Defined.




(** ** The inference step (C5) *)




(** In the small world the note after note 5 is note 6, and the state has
    counted one step. *)
Example get_next_note_from_note_toy :
  let r := get_next_note_from_note Toy.world (Toy.onehot 5) (Toy.fresh Toy.args) in
  res_val r = inr (Toy.onehot 6) /\ state_value (res_self r) = [[1; 1]%Q].
Proof. split; vm_compute; reflexivity. Qed.

(** ** A primer file that does not exist (C6) *)

(** C6 (failing input).  With a primer path where no file exists the
    constructor returns, logs the warning and leaves the state all-zero; but
    [restore_initialize_prime] then raises: first on the attribute
    [checkpoint_dir], which the constructor never assigns, and, once the caller
    has assigned it and the restore has succeeded, on the attribute [primer],
    which [load_primer] did not assign.  Priming is not skipped. *)
Theorem restore_initialize_prime_missing_primer_raises :
  let w := Toy.world in
  let a := Toy.with_primer "missing.mid" Toy.args in
  let self := res_self (construct w a) in
  let sess := mkSession ∅ in
  path_exists w "missing.mid" = false
  /\ res_val (construct w a) = inr tt
  /\ In (LogWarn "ERROR! No such primer file exists! %s" ["missing.mid"])
        (res_log (construct w a))
  /\ state_value self = [[0; 0]%Q]
  /\ res_val (restore_initialize_prime w sess self)
     = inl (AttributeError "checkpoint_dir")
  /\ res_val (restore_initialize_prime w sess
                (set_checkpoint_dir (Some "experiment/train") self))
     = inl (AttributeError "primer")
  /\ res_val (prime_model w false (Toy.fresh a)) = inl (AttributeError "primer").
Proof.
  cbv zeta. split; [reflexivity|]. split; [reflexivity|].
  split; [vm_compute; tauto|]. repeat split; vm_compute; reflexivity.
Qed.

(** ** The shape of the Recurrent State Vector (C9) *)

(** C9.  With a cell that keeps the width of its state, the constructor sets
    the batch size to 1 and the state value to the all-zero matrix of one row
    of the cell's state width; [get_next_note_from_note] and [prime_model]
    keep that shape, whether they return or raise, and so does every sequence
    of method calls on a constructed instance. *)
Theorem state_value_shape_invariant (w : World) :
  (forall hp, cell_ok (make_cell w hp)) ->
  (forall a self log,
      construct w a = mkRes self log (inr tt) ->
      batch_size self = 1
      /\ exists c, cell self = Some c
                   /\ state_value self = np.zeros (batch_size self) (Cell.state_size c)
                   /\ state_value self = [replicate (Cell.state_size c) 0%Q])
  /\ (forall self note,
        has_state_shape w self ->
        has_state_shape w (res_self (get_next_note_from_note w note self)))
  /\ (forall self b,
        has_state_shape w self ->
        has_state_shape w (res_self (prime_model w b self)))
  /\ (forall self, reachable w self -> has_state_shape w self).
Proof.
  intros Hok. split; [|split; [|split]].
  - intros a self log H.
    destruct (construct_success w a self log H) as (Hb & _ & _ & Hc & Hs & _).
    split; [exact Hb|]. eexists. split; [exact Hc|]. rewrite Hb. split; exact Hs.
  - intros self note H.
    exact (stepped_shape w _ _ Hok H (get_next_note_from_note_stepped w note self)).
  - intros self b H.
    exact (stepped_shape w _ _ Hok H (prime_model_stepped w b self)).
  - exact (reachable_shape w Hok).
Qed.

Lemma state_value_shape_invariant_witness :
  let self := Toy.fresh (Toy.with_primer "primer.mid" Toy.args) in
  has_state_shape Toy.world
    (res_self (prime_model Toy.world false
                 (res_self (get_next_note_from_note Toy.world (Toy.onehot 5) self)))).
Proof.
  cbv zeta.
  destruct (state_value_shape_invariant Toy.world toy_cell_ok) as (_ & Hstep & Hprime & Hreach).
  apply Hprime. apply Hstep. apply Hreach.
  apply reach_initialize_new.
  apply (reach_construct Toy.world (Toy.with_primer "primer.mid" Toy.args) _
           (res_log (construct Toy.world (Toy.with_primer "primer.mid" Toy.args)))).
  apply toy_construct. reflexivity.
Defined.

(** After a step and a priming the state is still one row of two entries. *)
Example state_value_after_step_and_prime :
  let self := Toy.fresh (Toy.with_primer "primer.mid" Toy.args) in
  state_value (res_self (prime_model Toy.world false
                 (res_self (get_next_note_from_note Toy.world (Toy.onehot 5) self))))
  = [[4; 4]%Q].
Proof. vm_compute. reflexivity. Qed.

(** ** The initial state of priming (C10) *)

(** C10.  The one forward pass of [prime_model] is fed the current state
    value: on an instance that was constructed and then given its session that
    is the all-zero state, and a second [prime_model] call, or one after a
    step, is fed the state the earlier call left. *)
Theorem prime_model_feeds_current_state (w : World) :
  (forall self b,
      can_prime w self ->
      fed_initial_states (res_log (prime_model w b self)) = [state_value self])
  /\ (forall a self0 log0 sess b,
        construct w a = mkRes self0 log0 (inr tt) ->
        let self := res_self (initialize_new w sess self0) in
        can_prime w self ->
        exists c, cell self = Some c
                  /\ fed_initial_states (res_log (prime_model w b self))
                     = [np.zeros 1 (Cell.state_size c)])
  /\ (forall self b b',
        can_prime w self ->
        let self' := res_self (prime_model w b self) in
        fed_initial_states (res_log (prime_model w b' self')) = [state_value self'])
  /\ (forall self note b,
        can_prime w self ->
        let self' := res_self (get_next_note_from_note w note self) in
        fed_initial_states (res_log (prime_model w b self')) = [state_value self']).
Proof.
  split; [|split; [|split]].
  - intros self b H. exact (prime_model_log w b self H).
  - intros a self0 log0 sess b Hc. cbv zeta. intros Hp.
    destruct (construct_success w a self0 log0 Hc) as (_ & _ & _ & Hcell & Hs & _).
    destruct (initialize_new_frame w sess self0) as ((_ & Fc & _ & Fs) & _).
    eexists. split; [rewrite Fc; exact Hcell|].
    rewrite (prime_model_log w b _ Hp), Fs, Hs. reflexivity.
  - intros self b b' H. cbv zeta. apply prime_model_log.
    exact (stepped_can_prime w _ _ H (prime_model_stepped w b self)).
  - intros self note b H. cbv zeta. apply prime_model_log.
    exact (stepped_can_prime w _ _ H (get_next_note_from_note_stepped w note self)).
Qed.

Lemma toy_can_prime : can_prime Toy.world (Toy.fresh (Toy.with_primer "primer.mid" Toy.args)).
Proof.
  split; [eexists; reflexivity|]. split; [eexists; reflexivity|].
  do 2 eexists. split; reflexivity.
Qed.

Lemma prime_model_feeds_current_state_witness :
  let self := Toy.fresh (Toy.with_primer "primer.mid" Toy.args) in
  let self' := res_self (prime_model Toy.world false self) in
  fed_initial_states (res_log (prime_model Toy.world false self)) = [state_value self]
  /\ fed_initial_states (res_log (prime_model Toy.world true self')) = [state_value self'].
Proof.
  cbv zeta. split.
  - exact (proj1 (prime_model_feeds_current_state Toy.world) _ false toy_can_prime).
  - exact (proj1 (proj2 (proj2 (prime_model_feeds_current_state Toy.world)))
             _ false true toy_can_prime).
Defined.

(** In the small world the first priming starts from zeros and counts three
    steps; the second starts from there and counts three more. *)
Example prime_model_twice :
  let self := Toy.fresh (Toy.with_primer "primer.mid" Toy.args) in
  let self' := res_self (prime_model Toy.world false self) in
  state_value self = [[0; 0]%Q]
  /\ state_value self' = [[3; 3]%Q]
  /\ fed_initial_states (res_log (prime_model Toy.world false self')) = [[[3; 3]%Q]]
  /\ state_value (res_self (prime_model Toy.world false self')) = [[6; 6]%Q].
Proof. cbv zeta. repeat split; vm_compute; reflexivity. Qed.

(** * Further properties of the methods *)

Lemma startswith_append (p s : string) : startswith (p +:+ s) p = true.
Proof.
  unfold startswith. induction p as [| c p IH]; [destruct s; reflexivity|].
  change (String c p +:+ s) with (String c (p +:+ s)).
  cbn [String.prefix]. destruct (ascii_dec c c) as [_ | Hne]; [exact IH | contradiction].
Qed.

Lemma startswith_trans (s1 s2 v : string) :
  startswith s2 s1 = true -> startswith v s2 = true -> startswith v s1 = true.
Proof.
  unfold startswith. revert s2 v. induction s1 as [| a s1 IH]; intros s2 v H1 H2.
  - destruct v; reflexivity.
  - destruct s2 as [| b s2]; [discriminate H1|].
    destruct v as [| c v]; [discriminate H2|].
    cbn in *. destruct (ascii_dec a b) as [-> | _]; [|discriminate H1].
    destruct (ascii_dec b c) as [-> | _]; [|discriminate H2].
    eapply IH; eassumption.
Qed.

Lemma append_assoc_string (a b c : string) : (a +:+ b) +:+ c = a +:+ (b +:+ c).
Proof.
  induction a as [| d a IH]; [reflexivity|].
  change (String d ((a +:+ b) +:+ c) = String d (a +:+ (b +:+ c))).
  rewrite IH. reflexivity.
Qed.

(** X1.  Every entry of the map built by [get_variable_name_dict] has a key
    that starts with the checkpoint scope and a '/', and holds a variable of
    the graph whose name starts with the instance's scope. *)
Theorem name_dict_confined (w : World) (self : NoteRNNLoader) (k : string) (v : TfVar) :
  get_variable_name_dict w self !! k = Some v ->
  startswith k (checkpoint_scope self +:+ "/") = true
  /\ startswith (name v) (scope self) = true
  /\ In v (all_variables w (graph self)).
Proof.
  intros H. destruct (get_variable_name_dict_entries w self k v H) as [Hin Hk].
  unfold variables in Hin. apply filter_In in Hin as [Hall Hsel].
  split; [|split; assumption].
  rewrite <- Hk. unfold checkpoint_name.
  rewrite <- (append_assoc_string (checkpoint_scope self) "/"). apply startswith_append.
Qed.

Lemma name_dict_confined_witness :
  let self := Toy.fresh Toy.args in
  startswith "rnn_model/fully_connected/bias" (checkpoint_scope self +:+ "/") = true
  /\ startswith (name (mkVar "q_network/fully_connected/bias:0" [38])) (scope self) = true
  /\ In (mkVar "q_network/fully_connected/bias:0" [38])
        (all_variables Toy.world (graph self)).
Proof.
  apply (name_dict_confined Toy.world (Toy.fresh Toy.args)
           "rnn_model/fully_connected/bias" (mkVar "q_network/fully_connected/bias:0" [38])).
  vm_compute. reflexivity.
Defined.

(** X2.  [variables] selects by string prefix: in one graph, what an instance
    whose scope string extends another instance's scope string selects is also
    selected by that other instance. *)
Theorem variables_of_longer_scope (w : World) (self self' : NoteRNNLoader) :
  graph self' = graph self ->
  startswith (scope self') (scope self) = true ->
  forall v, In v (variables w self') -> In v (variables w self).
Proof.
  intros Hg Hsc v Hin. unfold variables in *. rewrite Hg in Hin.
  apply filter_In in Hin as [Hall Hsel]. apply filter_In. split; [exact Hall|].
  exact (startswith_trans _ _ _ Hsc Hsel).
Qed.

Lemma variables_of_longer_scope_witness :
  In (mkVar "q_network_target/fully_connected/bias:0" [38])
     (variables Toy.shared_world (res_self (construct Toy.shared_world Toy.args))).
Proof.
  apply (variables_of_longer_scope Toy.shared_world
           (res_self (construct Toy.shared_world Toy.args))
           (res_self (construct Toy.shared_world Toy.target_args))).
  - reflexivity.
  - reflexivity.
  - vm_compute. tauto.
Defined.

Lemma restore_vars_from_checkpoint_changes (w : World) (dir : string)
      (self : NoteRNNLoader) :
  let r := restore_vars_from_checkpoint w dir self in
  (res_self r = self /\ exists e, res_val r = inl e)
  \/ (exists s, res_self r = set_session (Some s) self /\ res_val r = inr tt).
Proof.
  cbv zeta. unfold restore_vars_from_checkpoint. monad_unfold.
  repeat step_match; eauto.
Qed.




Lemma get_next_note_from_note_changes (w : World) (note : Tensor1) (self : NoteRNNLoader) :
  let r := get_next_note_from_note w note self in
  res_self r = self \/ exists st, res_self r = set_state_value st self.
Proof.
  cbv zeta. unfold get_next_note_from_note. monad_unfold.
  destruct (np.reshape3 _ _ _ _) as [e | input_batch]; monad_unfold; [auto|].
  run_session Hrun; [auto|].
  run_note. repeat step_match; eauto.
Qed.

Lemma prime_model_changes (w : World) (b : bool) (self : NoteRNNLoader) :
  let r := prime_model w b self in
  res_self r = self
  \/ (exists st, res_self r = set_state_value st self)
  \/ (exists st note, res_self r = set_priming_note (Some note) (set_state_value st self)).
Proof.
  cbv zeta. unfold prime_model. monad_unfold.
  destruct b; monad_unfold.
  all: destruct (primer self) as [p |]; monad_unfold; [|auto].
  all: destruct (encoder_encode w p) as [e | inputs]; monad_unfold; [auto|].
  all: run_session Hrun; [auto|].
  all: destruct (np.last_row _) as [e | row]; monad_unfold; [eauto|].
  all: run_note.
  all: repeat step_match; eauto 6.
Qed.

Lemma initialize_and_restore_no_checkpoint_dir (w : World) (sess : Session)
      (self : NoteRNNLoader) :
  checkpoint_dir self = None ->
  initialize_and_restore w sess self =
  mkRes (set_session (Some sess) self) [] (inl (AttributeError "checkpoint_dir")).
Proof.
  intros Hd. unfold initialize_and_restore. monad_unfold. rewrite Hd. reflexivity.
Qed.

Lemma load_primer_checkpoint_dir (w : World) (self : NoteRNNLoader) :
  checkpoint_dir (res_self (load_primer w self)) = checkpoint_dir self.
Proof. unfold load_primer. monad_unfold. repeat step_match; reflexivity. Qed.

Lemma initialize_new_checkpoint_dir (w : World) (sess : option Session) (self : NoteRNNLoader) :
  checkpoint_dir (res_self (initialize_new w sess self)) = checkpoint_dir self.
Proof. unfold initialize_new. monad_unfold. repeat step_match; reflexivity. Qed.

Lemma reachable_by_methods_checkpoint_dir (w : World) (self : NoteRNNLoader) :
  reachable_by_methods w self -> checkpoint_dir self = None.
Proof.
  intros H. induction H as [a self log Hc | | | | | | | | |].
  - destruct (construct_success w a self log Hc) as (_&_&_&_&_&_&_&_&_&_&Hd&_). exact Hd.
  - rewrite initialize_new_checkpoint_dir. assumption.
  - rewrite (initialize_and_restore_no_checkpoint_dir w sess self IHreachable_by_methods).
    exact IHreachable_by_methods.
  - rewrite (restore_initialize_prime_no_checkpoint_dir w sess self IHreachable_by_methods).
    exact IHreachable_by_methods.
  - destruct (restore_vars_from_checkpoint_changes w dir self) as [[-> _] | (s & -> & _)];
      assumption.
  - rewrite load_primer_checkpoint_dir. assumption.
  - destruct (prime_model_changes w b self) as [-> | [(st & ->) | (st & n & ->)]];
      assumption.
  - rewrite get_note_from_softmax_self. assumption.
  - rewrite run_training_batch_self. assumption.
  - destruct (get_next_note_from_note_changes w note self) as [-> | (st & ->)]; assumption.
Qed.


(** X5.  No method assigns [checkpoint_dir]: on a constructed instance, after
    any sequence of method calls, [initialize_and_restore] and
    [restore_initialize_prime] store the session and raise [AttributeError]
    before anything is logged or restored. *)
Theorem restore_modes_raise_without_checkpoint_dir (w : World) (self : NoteRNNLoader)
        (sess : Session) :
  reachable_by_methods w self ->
  initialize_and_restore w sess self
  = mkRes (set_session (Some sess) self) [] (inl (AttributeError "checkpoint_dir"))
  /\ restore_initialize_prime w sess self
     = mkRes (set_session (Some sess) self) [] (inl (AttributeError "checkpoint_dir")).
Proof.
  intros H. pose proof (reachable_by_methods_checkpoint_dir w self H) as Hd. split.
  - exact (initialize_and_restore_no_checkpoint_dir w sess self Hd).
  - exact (restore_initialize_prime_no_checkpoint_dir w sess self Hd).
Qed.

Lemma restore_modes_raise_without_checkpoint_dir_witness :
  initialize_and_restore Toy.world (mkSession ∅) (Toy.fresh Toy.args)
  = mkRes (set_session (Some (mkSession ∅)) (Toy.fresh Toy.args)) []
          (inl (AttributeError "checkpoint_dir"))
  /\ restore_initialize_prime Toy.world (mkSession ∅) (Toy.fresh Toy.args)
     = mkRes (set_session (Some (mkSession ∅)) (Toy.fresh Toy.args)) []
             (inl (AttributeError "checkpoint_dir")).
Proof.
  apply restore_modes_raise_without_checkpoint_dir.
  apply by_initialize_new.
  apply (by_construct Toy.world Toy.args _ (res_log (construct Toy.world Toy.args))).
  apply toy_construct. reflexivity.
Defined.

(** X6.  A training batch does not depend on the Recurrent State Vector and
    does not change the instance: with another state value the result and the
    trace are the same. *)
Theorem run_training_batch_ignores_state (w : World) (self : NoteRNNLoader) (v : Tensor2) :
  res_val (run_training_batch w (set_state_value v self)) = res_val (run_training_batch w self)
  /\ res_log (run_training_batch w (set_state_value v self))
     = res_log (run_training_batch w self)
  /\ res_self (run_training_batch w self) = self.
Proof.
  assert (Hnet : forall c sess m lens init,
            softmax_and_state_tensor w (set_state_value v self) c sess m lens init
            = softmax_and_state_tensor w self c sess m lens init) by reflexivity.
  split; [|split; [|apply run_training_batch_self]].
  all: unfold run_training_batch; monad_unfold.
  all: repeat first [rewrite Hnet | step_match]; reflexivity.
Qed.

Lemma zeros_rows (r c : nat) :
  length (np.zeros r c) = r /\ Forall (fun row => length row = c) (np.zeros r c).
Proof.
  unfold np.zeros. rewrite length_replicate. split; [reflexivity|].
  induction r as [| r IH]; cbn [replicate]; constructor;
    [apply length_replicate | exact IH].
Qed.

Lemma softmax_and_state_tensor_batch (w : World) (self : NoteRNNLoader) (c : Cell.t)
      (sess : Session) (m_seq : Tensor3) (lens : list nat) (init sm st : Tensor2) :
  softmax_and_state_tensor w self c sess m_seq lens init = inr (sm, st) ->
  length m_seq = length init /\ length lens = length init.
Proof.
  unfold softmax_and_state_tensor, run_network_on_melody, tf.dynamic_rnn.
  destruct (Nat.eqb (length m_seq) (length lens) && Nat.eqb (length m_seq) (length init))
    eqn:Hdims; cbn [exc_bind].
  - apply andb_true_iff in Hdims as [H1 H2].
    apply Nat.eqb_eq in H1. apply Nat.eqb_eq in H2. intros _. split; congruence.
  - destruct (softmax_within_graph self); discriminate.
Qed.

(** X7.  A training batch that is returned has as many state rows and as many
    lengths as the hyperparameters' batch size, each state row of the cell's
    state width. *)
Theorem run_training_batch_result_rows (w : World) (self : NoteRNNLoader) (c : Cell.t)
        (softmax state : Tensor2) (lengths : list nat) :
  cell self = Some c -> cell_ok c ->
  res_val (run_training_batch w self) = inr (Some (softmax, state, lengths)) ->
  length state = HParams.batch_size (hparams self)
  /\ length lengths = HParams.batch_size (hparams self)
  /\ Forall (fun row => length row = Cell.state_size c) state.
Proof.
  intros Hc Hok. unfold run_training_batch. monad_unfold. rewrite Hc.
  destruct (training_file_list self); monad_unfold; [|discriminate].
  destruct (start_queue_runners w (session self)) as [e | []]; monad_unfold; [discriminate|].
  destruct (session self) as [sess |]; monad_unfold; [|discriminate].
  destruct (train self) as [t |]; monad_unfold; [|discriminate].
  destruct (dequeue_batch w t) as [e | [train_sequence train_lengths]]; monad_unfold;
    [discriminate|].
  destruct (zeros_rows (HParams.batch_size (hparams self)) (Cell.state_size c))
    as [Hrows Hwidth].
  destruct (softmax_and_state_tensor w self c sess train_sequence train_lengths _)
    as [e | [sm st]] eqn:Hrun; monad_unfold; [discriminate|].
  intros [= <- <- <-].
  destruct (softmax_and_state_tensor_shape w self c sess _ _ _ _ _ Hok Hwidth Hrun)
    as [Hlen Hall].
  destruct (softmax_and_state_tensor_batch w self c sess _ _ _ _ _ Hrun) as [_ Hl].
  rewrite Hlen, Hl, Hrows. auto.
Qed.

Lemma run_training_batch_result_rows_witness :
  let self := Toy.fresh (Toy.with_training_file_list (Some ["melodies.tfrecord"]) Toy.args) in
  exists softmax state lengths,
    res_val (run_training_batch Toy.world self) = inr (Some (softmax, state, lengths))
    /\ length state = HParams.batch_size (hparams self)
    /\ length lengths = HParams.batch_size (hparams self)
    /\ Forall (fun row => length row = Cell.state_size Toy.cell) state.
Proof.
  cbv zeta. do 3 eexists. split; [vm_compute; reflexivity|].
  eapply (run_training_batch_result_rows Toy.world _ Toy.cell).
  - reflexivity.
  - exact (toy_cell_ok Toy.hp).
  - vm_compute. reflexivity.
Defined.

(** X8.  [suppress_output] changes the log line of [prime_model] and nothing
    else: the result and the instance are the same with and without it. *)
Theorem prime_model_suppress_output (w : World) (self : NoteRNNLoader) :
  res_val (prime_model w true self) = res_val (prime_model w false self)
  /\ res_self (prime_model w true self) = res_self (prime_model w false self)
  /\ res_log (prime_model w false self)
     = LogInfo "Priming the model with MIDI file %s" [show (midi_primer self)]
       :: res_log (prime_model w true self).
Proof.
  unfold prime_model. monad_unfold.
  destruct (primer self) as [p |]; monad_unfold; [|auto].
  destruct (encoder_encode w p) as [e | inputs]; monad_unfold; [auto|].
  run_session Hrun; [auto|].
  destruct (np.last_row _) as [e | row]; monad_unfold; [auto|].
  rewrite !get_note_from_softmax_eq. monad_unfold.
  repeat step_match; auto.
Qed.

(** X9.  [get_next_note_from_note] changes no attribute but [state_value], and
    [prime_model] none but [state_value] and [priming_note]. *)
Theorem forward_passes_change_only_state (w : World) (self : NoteRNNLoader) :
  (forall note,
      let r := get_next_note_from_note w note self in
      res_self r = self \/ exists st, res_self r = set_state_value st self)
  /\ (forall b,
        let r := prime_model w b self in
        res_self r = self
        \/ (exists st, res_self r = set_state_value st self)
        \/ (exists st note, res_self r = set_priming_note (Some note) (set_state_value st self))).
Proof.
  split.
  - intros note. apply get_next_note_from_note_changes.
  - intros b. apply prime_model_changes.
Qed.

(** X10.  Without a session (no initialization method called yet) both
    forward-pass methods raise, run nothing and leave the instance as it was;
    a step raises [AttributeError] unless the note has the wrong size. *)
Theorem forward_passes_need_session (w : World) (self : NoteRNNLoader) :
  session self = None ->
  (forall note,
      let r := get_next_note_from_note w note self in
      res_self r = self /\ fed_initial_states (res_log r) = []
      /\ (res_val r = inl (AttributeError "run") \/ exists msg, res_val r = inl (ValueError msg)))
  /\ (forall b,
        let r := prime_model w b self in
        res_self r = self /\ fed_initial_states (res_log r) = []
        /\ exists e, res_val r = inl e).
Proof.
  intros Hs. split.
  - intros note. cbv zeta. unfold get_next_note_from_note. monad_unfold.
    unfold np.reshape3.
    destruct (Nat.eqb (length note) _); monad_unfold; [|eauto 6].
    unfold session_run. monad_unfold. rewrite Hs. monad_unfold. auto.
  - intros b. cbv zeta. unfold prime_model. monad_unfold.
    destruct b; monad_unfold.
    all: destruct (primer self) as [p |]; monad_unfold; [|eauto].
    all: destruct (encoder_encode w p) as [e | inputs]; monad_unfold; [eauto|].
    all: unfold session_run; monad_unfold; rewrite Hs; monad_unfold; eauto.
Qed.

Lemma forward_passes_need_session_witness :
  let self := res_self (construct Toy.world (Toy.with_primer "primer.mid" Toy.args)) in
  res_val (get_next_note_from_note Toy.world (Toy.onehot 5) self) = inl (AttributeError "run")
  /\ exists e, res_val (prime_model Toy.world false self) = inl e.
Proof.
  cbv zeta.
  destruct (forward_passes_need_session Toy.world
              (res_self (construct Toy.world (Toy.with_primer "primer.mid" Toy.args)))
              eq_refl) as [Hstep Hprime].
  split.
  - vm_compute. reflexivity.
  - destruct (Hprime false) as (_ & _ & He). exact He.
Defined.

(** X11.  [load_primer] never touches the state or the session.  It returns
    in two ways only: the file is missing (one warning, nothing assigned), or
    a first melody was extracted ([primer] is that melody and [steps_per_bar]
    its steps per bar, nothing logged); when it raises, [primer] and
    [steps_per_bar] are as before. *)
Theorem load_primer_outcomes (w : World) (self : NoteRNNLoader) :
  let r := load_primer w self in
  state_value (res_self r) = state_value self
  /\ session (res_self r) = session self
  /\ (res_val r = inr tt ->
      (exists p, midi_primer self = Some p /\ path_exists w p = false
                 /\ res_self r = self
                 /\ res_log r = [LogWarn "ERROR! No such primer file exists! %s" [p]])
      \/ (exists p ns m ms,
             midi_primer self = Some p /\ path_exists w p = true
             /\ midi_file_to_sequence_proto w p = inr ns
             /\ extract_melodies w ns = inr (m :: ms)
             /\ primer_sequence (res_self r) = Some ns
             /\ primer (res_self r) = Some m
             /\ steps_per_bar (res_self r) = Some (steps_per_bar_of m)
             /\ res_log r = []))
  /\ (forall e, res_val r = inl e -> primer (res_self r) = primer self
                                     /\ steps_per_bar (res_self r) = steps_per_bar self).
Proof.
  cbv zeta. unfold load_primer. monad_unfold.
  destruct (midi_primer self) as [p |]; monad_unfold.
  - destruct (path_exists w p) eqn:Hpath; monad_unfold.
    + destruct (midi_file_to_sequence_proto w p) as [e | ns] eqn:Hmidi; monad_unfold.
      * repeat split; auto; discriminate.
      * destruct (extract_melodies w ns) as [e | [| m ms]] eqn:Hex; monad_unfold.
        -- repeat split; auto; discriminate.
        -- repeat split; auto; discriminate.
        -- split; [reflexivity|]. split; [reflexivity|]. split.
           ++ intros _. right. exists p, ns, m, ms. repeat split; auto.
           ++ intros e He. discriminate He.
    + split; [reflexivity|]. split; [reflexivity|]. split.
      * intros _. left. exists p. auto.
      * intros e He. discriminate He.
  - repeat split; auto; discriminate.
Qed.

(** X12.  [get_note_from_softmax] neither changes the instance nor logs; it
    raises [ValueError] exactly on an empty array, otherwise returns
    [NUM_CLASSES] entries that are 0 or 1; a matrix of one row gives the note
    of that row. *)
Theorem get_note_from_softmax_outcomes (a : ndarray) (self : NoteRNNLoader) :
  let r := get_note_from_softmax a self in
  res_self r = self /\ res_log r = []
  /\ (np.ravel a = [] -> exists msg, res_val r = inl (ValueError msg))
  /\ (np.ravel a <> [] ->
      exists v, res_val r = inr v /\ length v = rl_tuner_ops.NUM_CLASSES
                /\ Forall (fun q => q = 0%Q \/ q = 1%Q) v)
  /\ (forall row, a = Arr2 [row] ->
                  res_val r = res_val (get_note_from_softmax (Arr1 row) self)).
Proof.
  cbv zeta. rewrite get_note_from_softmax_eq. cbn [res_self res_log res_val].
  split; [reflexivity|]. split; [reflexivity|]. split; [|split].
  - intros H. destruct (argmax_empty a H) as (msg & ->). eauto.
  - intros H. destruct (argmax_first a H) as (i & -> & _).
    eexists. split; [reflexivity|]. split; [apply unit_vector_length|].
    unfold unit_vector. apply List.Forall_forall. intros q Hin.
    apply in_map_iff in Hin as (j & <- & _). destruct (Nat.eqb j i); auto.
  - intros row ->. rewrite get_note_from_softmax_eq. cbn [res_val].
    unfold np.argmax. cbn [np.ravel concat]. rewrite app_nil_r. reflexivity.
Qed.

(** ** Steps that can be repeated *)

Lemma output_distribution_argmax (w : World) (sess : Session) (o : Tensor1) :
  layers_ok w ->
  exists i, np.argmax (Arr1 (softmax_fn w (legacy_linear w sess o rl_tuner_ops.NUM_CLASSES)))
            = inr i
            /\ np.argmax (Arr2 [softmax_fn w (legacy_linear w sess o rl_tuner_ops.NUM_CLASSES)])
               = inr i
            /\ i < rl_tuner_ops.NUM_CLASSES.
Proof.
  intros [Hlin Hsm].
  set (dist := softmax_fn w (legacy_linear w sess o rl_tuner_ops.NUM_CLASSES)).
  assert (Hlen : length dist = rl_tuner_ops.NUM_CLASSES).
  { unfold dist. rewrite Hsm, Hlin. reflexivity. }
  assert (Hne : np.ravel (Arr1 dist) <> []).
  { cbn [np.ravel]. intros Hnil. rewrite Hnil in Hlen. discriminate Hlen. }
  destruct (argmax_first (Arr1 dist) Hne) as (i & Hi & (Hlt & _)).
  exists i. split; [exact Hi|]. split.
  - unfold np.argmax in *. cbn [np.ravel concat] in *. rewrite app_nil_r. exact Hi.
  - cbn [np.ravel] in Hlt. rewrite Hlen in Hlt. exact Hlt.
Qed.








(** ** A step that raises *)

Lemma session_run_single_inv (w : World) (self : NoteRNNLoader) (init : Tensor2)
      (note : Tensor1) (sm st' : Tensor2) :
  res_val (session_run w init [[note]] [1] self) = inr (sm, st') ->
  exists sess c st,
    session self = Some sess /\ cell self = Some c /\ init = [st]
    /\ length note = HParams.one_hot_length (hparams self)
    /\ length st = Cell.state_size c.
Proof.
  unfold session_run. monad_unfold.
  destruct (session self) as [sess |]; monad_unfold; [|discriminate].
  destruct (cell self) as [c |]; monad_unfold; [|discriminate].
  unfold tf.feed_seq_ok, tf.feed_rows_ok. cbn [forallb]. rewrite !andb_true_r.
  destruct (Nat.eqb_spec (length note) (HParams.one_hot_length (hparams self)))
    as [Hnote | _]; [|discriminate].
  cbn [andb].
  destruct (forallb _ init) eqn:Hrows; monad_unfold; [|discriminate].
  destruct (softmax_and_state_tensor w self c sess [[note]] [1] init)
    as [e | [sm0 st0]] eqn:Hrun; cbn; [discriminate|].
  intros _.
  destruct (softmax_and_state_tensor_batch w self c sess _ _ _ _ _ Hrun) as [Hlen _].
  destruct init as [| st [| st2 init]]; try discriminate Hlen.
  cbn [forallb] in Hrows. rewrite andb_true_r in Hrows. apply Nat.eqb_eq in Hrows.
  exists sess, c, st. auto.
Qed.

(** X15.  A step that raises leaves the instance, with its Recurrent State
    Vector, as it was. *)
Theorem failed_step_keeps_instance (w : World) (self : NoteRNNLoader) (note : Tensor1)
        (e : Exception) :
  layers_ok w -> batch_size self = 1 ->
  res_val (get_next_note_from_note w note self) = inl e ->
  res_self (get_next_note_from_note w note self) = self.
Proof.
  intros Hl Hb.
  destruct (Nat.eq_dec (length note) rl_tuner_ops.NUM_CLASSES) as [Hnote | Hnote].
  - unfold get_next_note_from_note. monad_unfold.
    rewrite Hb, (reshape3_single note _ Hnote). monad_unfold.
    unfold np.full. cbn [replicate].
    pose proof (session_run_self w (state_value self) [[note]] [1] self) as Hself.
    destruct (session_run w (state_value self) [[note]] [1] self)
      as [s1 l1 [e1 | [sm st']]] eqn:Hrun; cbn in Hself; subst s1; monad_unfold.
    + intros _. reflexivity.
    + assert (Hv : res_val (session_run w (state_value self) [[note]] [1] self)
                   = inr (sm, st')) by (rewrite Hrun; reflexivity).
      destruct (session_run_single_inv w self _ note sm st' Hv)
        as (sess & c & st & Hs & Hc & Hstate & Hn & Hst).
      rewrite Hstate, (session_run_single w self sess c st note Hs Hc Hn Hst) in Hrun.
      injection Hrun as _ Hsm _. subst sm.
      assert (Hhp : HParams.one_hot_length (hparams self) = rl_tuner_ops.NUM_CLASSES)
        by congruence.
      rewrite Hhp.
      destruct (output_distribution_argmax w sess (fst (Cell.call c sess note st)) Hl)
        as (i & _ & Hi & _).
      rewrite get_note_from_softmax_eq, Hi. monad_unfold. discriminate.
  - unfold get_next_note_from_note. monad_unfold. rewrite Hb.
    destruct (reshape3_wrong_size note _ Hnote) as (msg & ->). monad_unfold.
    intros _. reflexivity.
Qed.

Lemma failed_step_keeps_instance_witness :
  let self := Toy.fresh Toy.args in
  res_self (get_next_note_from_note Toy.world [1; 0; 0]%Q self) = self.
Proof.
  cbv zeta.
  apply (failed_step_keeps_instance Toy.world (Toy.fresh Toy.args) [1; 0; 0]%Q
           (ValueError "cannot reshape array")).
  - exact toy_layers_ok.
  - reflexivity.
  - reflexivity.
Defined.

(** ** Stepping through a sequence and priming over it *)









